(** * MultiQC scatter plot: outlier annotation and legend de-duplication

    A shallow embedding of [ScatterPlot.Dataset.create_figure]
    (multiqc/plots/plotly/scatter.py).  Python floats and NumPy [float64]
    values are IEEE-754 binary64 numbers, modelled by Rocq's primitive
    floats; dictionaries of optional keys become records of [option]s; the
    [defaultdict(set)] and the [set] of legend keys become stdpp's [gmap]
    and [gset]; the in-place mutation of the points is explicit state
    passing over the list of points.  The selector decides from the
    content of a point alone, so a dict that occurs twice in the list is
    treated alike at both places, and a list of values stands for the
    list of objects. *)

From Stdlib Require Import Floats ZArith String.
From stdpp Require Import base option list gmap sets strings sorting.

Set Warnings "-inexact-float".
Set Default Proof Using "Type".

Local Open Scope Z_scope.
Local Open Scope nat_scope.

(* ================================================================== *)
(** * Data model *)
(* ================================================================== *)

(** [PointT = Dict[str, Union[str, float, int]]].  A key that may be
    missing is an [option]; [x], [y] and [name] are read with [el["x"]]
    and so on, hence required.  Marker sizes and line widths are integer
    pixel counts, as in the defaults of [trace_params].  A [str] is a
    [string], one character per code point (below 256): [len] is
    [String.length] and the order of [sorted] is [String.le]. *)
Record Point := mkPoint {
  x : float;
  y : float;
  name : string;
  color : option string;
  group : option string;
  marker_size : option Z;
  marker_line_width : option Z;
  opacity : option float;
  annotate : option bool;
  hide_in_legend : option bool;
  annotation : option string;
}.

(** [point["annotation"] = value] *)
Definition set_annotation (value : string) (point : Point) : Point :=
  {| x := x point; y := y point; name := name point;
     color := color point; group := group point;
     marker_size := marker_size point;
     marker_line_width := marker_line_width point;
     opacity := opacity point; annotate := annotate point;
     hide_in_legend := hide_in_legend point;
     annotation := Some value |}.

(** [point["annotation"] = point["name"]] *)
Definition annotate_with_name (point : Point) : Point :=
  set_annotation (name point) point.

(** ["annotation" in el] *)
Definition has_annotation (el : Point) : bool :=
  match annotation el with Some _ => true | None => false end.

(** [x.get("annotate", True) is not False] *)
Definition is_candidate (el : Point) : bool :=
  match annotate el with Some false => false | _ => true end.

(** Truth value of a Python [str] or [None]: [bool(s)]. *)
Definition str_truthy (s : option string) : bool :=
  match s with
  | Some EmptyString => false
  | Some _ => true
  | None => false
  end.

(** Truth value of an optional [bool]: [bool(el.get(key))]. *)
Definition bool_truthy (b : option bool) : bool :=
  match b with Some true => true | _ => false end.

(** The annotation is a text that is shown: [if annotation:]. *)
Definition annotation_nonempty (el : Point) : bool :=
  str_truthy (annotation el).

(** [marker=dict(size, line=dict(width, color), opacity, color)] *)
Record Marker := mkMarker {
  marker_color : string;
  marker_px : Z;
  marker_opacity : float;
  line_width : Z;
  line_color : option string;
}.

(** [self.trace_params]: the keys set by [Dataset.create], and [mode],
    which only the base dataset may have set. *)
Record TraceParams := mkTraceParams {
  mode : option string;
  textfont_size : Z;
  marker : Marker;
}.

(** One [go.Scatter(...)] added to the figure. *)
Record Trace := mkTrace {
  trace_x : list float;
  trace_y : list float;
  trace_name : string;
  trace_text : list string;
  showlegend : bool;
  trace_marker : Marker;
  trace_mode : option string;
  trace_textfont_size : Z;
}.

(** [go.Layout]: the two attributes that [create_figure] touches. *)
Record Layout := mkLayout {
  layout_showlegend : bool;
  layout_height : Z;
}.

Record Figure := mkFigure {
  fig_layout : Layout;
  fig_traces : list Trace;
}.

(** [ScatterPlot.Dataset]: the fields of [BaseDataset] that
    [create_figure] reads, and [points]. *)
Record Dataset := mkDataset {
  plot_id : string;
  trace_params : TraceParams;
  points : list Point;
}.

(** Records written by [logger], with the values that the messages are
    formatted from. *)
Inductive LogRecord :=
  | Warning_same_coordinates (plot : string) (n_points : nat)
  | Debug_threshold (threshold : float) (n_outliers : nat).

(** [Dataset.create]: [dataset.trace_params.update(textfont=..., marker=...)];
    [base_mode] is the [mode] of the base dataset's [trace_params].  The
    ticks that [create] sets for [categories] belong to the layout of the
    dataset, which [create_figure] does not read. *)
Definition create (id : string) (base_mode : option string)
    (points : list Point) : Dataset :=
  {| plot_id := id;
     trace_params :=
       {| mode := base_mode;
          textfont_size := 8;
          marker := {| marker_color := "rgba(124, 181, 236, .5)";
                       marker_px := 10;
                       marker_opacity := 1%float;
                       line_width := 1;
                       line_color := None |} |};
     points := points |}.

(* ================================================================== *)
(** * NumPy *)
(* ================================================================== *)

(** The two reductions of NumPy that the selector calls.  NumPy is not
    part of the repository: the general theorems hold for every
    implementation of the interface, and [numpy_float64] below is the
    instance at which examples are evaluated. *)
Class NumPy := {
  np_mean : list float → float;
  np_std : list float → float;
}.

(** NumPy adds the elements of a contiguous [float64] array by pairwise
    summation ([DOUBLE_pairwise_sum]): fewer than eight elements are
    added from the left, starting from [-0.0]; up to [PW_BLOCKSIZE]
    elements are added into eight accumulators, which are then added two
    by two before the elements beyond the last multiple of eight are
    added from the left; a longer array is split near its middle, at a
    multiple of eight. *)
Definition PW_BLOCKSIZE : nat := 128.

(** [for (i = 8; i < n - (n % 8); i += 8) r[j] += a[i + j]]: the
    accumulators, and the elements that are left. *)
Fixpoint sum_unrolled (fuel : nat) (r a : list float)
    : list float * list float :=
  match fuel with
  | O => (r, a)
  | S fuel' =>
      if bool_decide (8 ≤ length a)
      then sum_unrolled fuel' (zip_with PrimFloat.add r (take 8 a)) (drop 8 a)
      else (r, a)
  end.

(** [((r[0] + r[1]) + (r[2] + r[3])) + ((r[4] + r[5]) + (r[6] + r[7]))] *)
Definition sum_accumulators (r : list float) : float :=
  match r with
  | [r0; r1; r2; r3; r4; r5; r6; r7] =>
      PrimFloat.add
        (PrimFloat.add (PrimFloat.add r0 r1) (PrimFloat.add r2 r3))
        (PrimFloat.add (PrimFloat.add r4 r5) (PrimFloat.add r6 r7))
  | _ => foldl PrimFloat.add (-0)%float r
  end.

(** The branch [n <= PW_BLOCKSIZE] for an array of eight and more. *)
Definition sum_block (a : list float) : float :=
  let '(r, rest) := sum_unrolled (length a) (take 8 a) (drop 8 a) in
  foldl PrimFloat.add (sum_accumulators r) rest.

(** [DOUBLE_pairwise_sum(a, n, stride)]; the recursion halves the array,
    and [fuel] bounds its depth. *)
Fixpoint pairwise_sum (fuel : nat) (a : list float) : float :=
  let n := length a in
  if bool_decide (n < 8) then foldl PrimFloat.add (-0)%float a
  else if bool_decide (n ≤ PW_BLOCKSIZE) then sum_block a
  else
    match fuel with
    | O => sum_block a
    | S fuel' =>
        let n2 := n / 2 - (n / 2) mod 8 in
        PrimFloat.add (pairwise_sum fuel' (take n2 a))
                      (pairwise_sum fuel' (drop n2 a))
    end.

(** [np.add.reduce] on [float64]: the pairwise sum is added to the
    identity of the addition.  (Only the sign of a sum that is zero
    depends on the sign of that identity, and the selector takes absolute
    values and compares.) *)
Definition np_sum (a : list float) : float :=
  PrimFloat.add 0%float (pairwise_sum (length a) a).

Definition float_of_len {A} (a : list A) : float :=
  PrimFloat.of_uint63 (Uint63.of_nat (length a)).

(** [np.mean(a)]: the sum divided by the number of elements; the empty
    array gives [0 / 0], that is [nan] (NumPy warns, and does not raise). *)
Definition mean_float64 (a : list float) : float :=
  PrimFloat.div (np_sum a) (float_of_len a).

(** [np.std(a)]: the square root of the mean of the squared deviations
    from the mean ([ddof = 0]). *)
Definition std_float64 (a : list float) : float :=
  let arrmean := mean_float64 a in
  let dev := (λ v, PrimFloat.sub v arrmean) <$> a in
  PrimFloat.sqrt (mean_float64 ((λ d, PrimFloat.mul d d) <$> dev)).

Definition numpy_float64 : NumPy :=
  {| np_mean := mean_float64; np_std := std_float64 |}.

(** [np.count_nonzero] of a boolean array. *)
Fixpoint count_nonzero (a : list bool) : nat :=
  match a with
  | [] => 0
  | b :: a' => (if b then 1 else 0) + count_nonzero a'
  end.

(** [(x_z_scores > threshold) | (y_z_scores > threshold)] *)
Definition outlier_mask (threshold : float) (x_z_scores y_z_scores : list float)
    : list bool :=
  zip_with orb ((λ z, PrimFloat.ltb threshold z) <$> x_z_scores)
               ((λ z, PrimFloat.ltb threshold z) <$> y_z_scores).

(** [x_z_score > threshold or y_z_score > threshold] *)
Definition is_outlier (threshold x_z_score y_z_score : float) : bool :=
  PrimFloat.ltb threshold x_z_score || PrimFloat.ltb threshold y_z_score.

(* ================================================================== *)
(** * The outlier selector (lines 80-112) *)
(* ================================================================== *)

Definition MAX_ANNOTATIONS : nat := 10.

(** [len([el for el in self.points if "annotation" in el])] *)
Definition count_annotated (points : list Point) : nat :=
  length (filter (λ el, has_annotation el = true) points).

(** [[(i, x) for i, x in enumerate(self.points)
       if x.get("annotate", True) is not False]] *)
Definition candidates (points : list Point) : list (nat * Point) :=
  filter (λ ip, is_candidate ip.2 = true) (imap pair points).

(** The [while threshold <= 6.0] loop.  [fuel] bounds the number of
    iterations; [None] means that it ran out.  The result is the value
    of [threshold] after the loop and the records written by
    [logger.debug], oldest first. *)
Fixpoint threshold_loop (fuel : nat) (n_annotated : nat)
    (x_z_scores y_z_scores : list float) (threshold : float)
    : option (float * list LogRecord) :=
  match fuel with
  | O => None
  | S fuel' =>
      if PrimFloat.leb threshold 6.0%float then
        let n_outliers :=
          count_nonzero (outlier_mask threshold x_z_scores y_z_scores) in
        let record := Debug_threshold threshold n_outliers in
        if bool_decide (n_annotated + n_outliers ≤ MAX_ANNOTATIONS) then
          Some (threshold, [record])
        else
          '(t, log) ← threshold_loop fuel' n_annotated x_z_scores y_z_scores
                        (PrimFloat.add threshold 0.2%float);
          Some (t, record :: log)
      else Some (threshold, [])
  end.

(** Iterations after which the loop has always ended, see
    [threshold_loop_enough_fuel]. *)
Definition LOOP_FUEL : nat := 26.

(** [for (i, point), x_z_score, y_z_score in zip(points, x_z_scores, y_z_scores)]:
    the point at index [i] of the dataset is mutated. *)
Definition annotate_outliers (threshold : float)
    (cands : list (nat * Point)) (x_z_scores y_z_scores : list float)
    (store : list Point) : list Point :=
  foldl (λ st '(ip, x_z_score, y_z_score),
           if is_outlier threshold x_z_score y_z_score
           then alter annotate_with_name ip.1 st
           else st)
        store (zip (zip cands x_z_scores) y_z_scores).

(** [for i, point in points: point["annotation"] = point["name"]] *)
Definition annotate_all (cands : list (nat * Point)) (store : list Point)
    : list Point :=
  foldl (λ st ip, alter annotate_with_name ip.1 st) store cands.

Section Selector.
Context `{NumPy}.

(** [np.abs((values - np.mean(values)) / std) if std else np.zeros_like(values)] *)
Definition z_scores (values : list float) (std : float) : list float :=
  if negb (PrimFloat.eqb std 0%float) then
    let m := np_mean values in
    (λ v, PrimFloat.abs (PrimFloat.div (PrimFloat.sub v m) std)) <$> values
  else (λ _, 0%float) <$> values.

(** Lines 81-112.  The result is the mutated list of points, the value
    of [n_annotated] after line 112 and the log. *)
Definition select_outliers_fuel (fuel : nat) (self : Dataset)
    : option (list Point * nat * list LogRecord) :=
  let n_annotated := count_annotated (points self) in
  if bool_decide (n_annotated < MAX_ANNOTATIONS) then
    let cands := candidates (points self) in
    let x_values := (λ ip, x ip.2) <$> cands in
    let y_values := (λ ip, y ip.2) <$> cands in
    let x_std := np_std x_values in
    let y_std := np_std y_values in
    if PrimFloat.eqb x_std 0%float && PrimFloat.eqb y_std 0%float then
      let log := [Warning_same_coordinates (plot_id self) (length cands)] in
      let store :=
        if bool_decide (length cands = 1)
        then annotate_all cands (points self)
        else points self in
      Some (store, count_annotated store, log)
    else
      let x_z_scores := z_scores x_values x_std in
      let y_z_scores := z_scores y_values y_std in
      '(threshold, log) ←
        threshold_loop fuel n_annotated x_z_scores y_z_scores 1.0%float;
      let store :=
        annotate_outliers threshold cands x_z_scores y_z_scores
          (points self) in
      Some (store, count_annotated store, log)
  else Some (points self, n_annotated, []).

Definition select_outliers (self : Dataset)
    : option (list Point * nat * list LogRecord) :=
  select_outliers_fuel LOOP_FUEL self.
End Selector.

(* ================================================================== *)
(** * The legend builder and the traces (lines 114-173) *)
(* ================================================================== *)

(** [(el.get("color"), el.get("marker_size"), el.get("marker_line_width"),
     el.get("group"))] *)
Abbreviation legend_key :=
  (option string * option Z * option Z * option string)%type.

Definition key_of (el : Point) : legend_key :=
  (color el, marker_size el, marker_line_width el, group el).

(** [names_by_legend_key[legend_key].add(el["name"])] on a
    [defaultdict(set)]. *)
Definition add_name (names : gmap legend_key (gset string)) (el : Point)
    : gmap legend_key (gset string) :=
  <[key_of el := default ∅ (names !! key_of el) ∪ {[name el]}]> names.

(** Lines 116-119. *)
Definition names_by_legend_key (points : list Point)
    : gmap legend_key (gset string) :=
  foldl add_name ∅ points.

(** [sorted(s)] for a set of [str]: Python compares strings character by
    character, as [String.le] does. *)
Definition sorted (s : gset string) : list string :=
  merge_sort String.le (elements s).

(** [", ".join(names)] *)
Definition join_names (names : list string) : string :=
  String.concat ", " names.

(** [if group: label = f"{group}: {label}"] *)
Definition with_group (group : option string) (label : string) : string :=
  match group with
  | Some g => if str_truthy (Some g) then g +:+ ": " +:+ label else label
  | None => label
  end.

Definition MAX_WIDTH : nat := 60.

(** [if len(label) > MAX_WIDTH: label = label[:MAX_WIDTH] + "..."] *)
Definition crop_label (label : string) : string :=
  if bool_decide (MAX_WIDTH < String.length label)
  then substring 0 MAX_WIDTH label +:+ "..."
  else label.

(** Lines 135-141: the label of the representative of [key]. *)
Definition legend_label (names : gmap legend_key (gset string))
    (key : legend_key) (group : option string) : string :=
  crop_label (with_group group (join_names (sorted (default ∅ (names !! key))))).

(** Lines 130-143: the new [in_legend], [show_in_legend] and [name]. *)
Definition legend_decision (layout : Layout)
    (names : gmap legend_key (gset string)) (in_legend : gset legend_key)
    (element : Point) : gset legend_key * bool * string :=
  if layout_showlegend layout && negb (bool_truthy (hide_in_legend element))
  then
    let key := key_of element in
    if bool_decide (key ∈ in_legend) then (in_legend, false, name element)
    else ({[key]} ∪ in_legend, true, legend_label names key (group element))
  else (in_legend, false, name element).

(** Lines 145-159: [marker] and [params["mode"]] of one trace. *)
Definition trace_marker_of (params : TraceParams) (n_annotated : nat)
    (element : Point) : Marker :=
  let m := marker params in
  {| marker_color :=
       match color element with
       | Some c => if str_truthy (Some c) then c else marker_color m
       | None => marker_color m
       end;
     marker_px := default (marker_px m) (marker_size element);
     marker_opacity := default (marker_opacity m) (opacity element);
     line_width := default (line_width m) (marker_line_width element);
     line_color :=
       if bool_decide (0 < n_annotated) then Some "rgba(0, 0, 0, .2)"
       else line_color m |}.

Definition trace_mode_of (params : TraceParams) (element : Point)
    : option string :=
  if str_truthy (annotation element) then Some "markers+text"
  else mode params.

(** [annotation or name] of line 166.  At that line [name] is the
    variable of line 125, which line 143 rebinds to the label when the
    point is a legend entry: it is the [name] that the trace gets. *)
Definition trace_text_of (element : Point) (name : string) : string :=
  match annotation element with
  | Some a => if str_truthy (Some a) then a else name
  | None => name
  end.

(** Lines 161-171: the [go.Scatter] of one point; [label] is the value of
    [name] at line 165.  Plotly, which is not part of the repository,
    validates the arguments and raises on a value that it does not accept
    (a colour that it cannot read, a negative size); this is the trace of
    a call that it accepts. *)
Definition scatter_trace (self : Dataset) (n_annotated : nat)
    (element : Point) (show_in_legend : bool) (label : string) : Trace :=
  {| trace_x := [x element];
     trace_y := [y element];
     trace_name := label;
     trace_text := [trace_text_of element label];
     showlegend := show_in_legend;
     trace_marker := trace_marker_of (trace_params self) n_annotated element;
     trace_mode := trace_mode_of (trace_params self) element;
     trace_textfont_size := textfont_size (trace_params self) |}.

(** The body of [for element in self.points] (lines 123-171): the state is
    [in_legend] and the traces added to [fig] so far. *)
Definition add_trace (self : Dataset) (layout : Layout)
    (names : gmap legend_key (gset string)) (n_annotated : nat)
    (state : gset legend_key * list Trace) (element : Point)
    : gset legend_key * list Trace :=
  let '(in_legend, show_in_legend, label) :=
    legend_decision layout names state.1 element in
  (in_legend,
   state.2 ++ [scatter_trace self n_annotated element show_in_legend label]).

(** [layout.showlegend = True] (line 120): the layout object of the
    caller after the call. *)
Definition layout_after (layout : Layout) : Layout :=
  {| layout_showlegend := true; layout_height := layout_height layout |}.

(** Lines 114-173 on the points as the selector left them.  The figure
    has a copy of the layout, made at line 78: its [showlegend] is the
    one that the caller passed, whereas the loop reads the layout object
    of the caller, on which line 120 has set it. *)
Definition build_figure (self : Dataset) (layout : Layout)
    (n_annotated : nat) (store : list Point) : Figure :=
  let names := names_by_legend_key store in
  let '(in_legend, traces) :=
    foldl (add_trace self (layout_after layout) names n_annotated)
          (∅, []) store in
  {| fig_layout :=
       {| layout_showlegend := layout_showlegend layout;
          layout_height :=
            (layout_height layout + Z.of_nat (size in_legend) * 5)%Z |};
     fig_traces := traces |}.

Section CreateFigure.
Context `{NumPy}.

(** [create_figure]: the figure, the points of the dataset after the
    call, and the log.  The layout of the caller is [layout_after layout]
    after the call. *)
Definition create_figure (self : Dataset) (layout : Layout)
    : option (Figure * list Point * list LogRecord) :=
  '(store, n_annotated, log) ← select_outliers self;
  Some (build_figure self layout n_annotated store, store, log).

End CreateFigure.

(* ================================================================== *)
(** * The thresholds of the search *)
(* ================================================================== *)

(** The values that [threshold] takes while [threshold <= 6.0] holds,
    starting from [1.0] and adding [0.2] in binary64 arithmetic. *)
Definition thresholds_tried : list float :=
  [ 1%float; 1.2%float; 1.3999999999999999%float; 1.5999999999999999%float;
    1.7999999999999998%float; 1.9999999999999998%float;
    2.1999999999999997%float; 2.3999999999999999%float;
    2.6000000000000001%float; 2.8000000000000003%float;
    3.0000000000000004%float; 3.2000000000000006%float;
    3.4000000000000008%float; 3.600000000000001%float;
    3.8000000000000012%float; 4.0000000000000009%float;
    4.2000000000000011%float; 4.4000000000000012%float;
    4.6000000000000014%float; 4.8000000000000016%float;
    5.0000000000000018%float; 5.200000000000002%float;
    5.4000000000000021%float; 5.6000000000000023%float;
    5.8000000000000025%float ].

(** The first value of [threshold] that fails [threshold <= 6.0]. *)
Definition threshold_exhausted : float := 6.0000000000000027%float.

(** [ths] are the values of the loop variable from [start] on, and
    [final] is the first one above [6.0]. *)
Fixpoint threshold_chain (ths : list float) (final start : float) : Prop :=
  match ths with
  | [] => final = start ∧ PrimFloat.leb start 6.0%float = false
  | t :: ths' =>
      t = start ∧ PrimFloat.leb t 6.0%float = true ∧
      threshold_chain ths' final (PrimFloat.add t 0.2%float)
  end.

(** The search as a scan of a list of thresholds: stop at the first one
    at which the annotated points and the outliers fit the cap; [final]
    if there is none. *)
Fixpoint scan_thresholds (ths : list float) (final : float)
    (n_annotated : nat) (x_z_scores y_z_scores : list float)
    : float * list LogRecord :=
  match ths with
  | [] => (final, [])
  | t :: ths' =>
      let n_outliers := count_nonzero (outlier_mask t x_z_scores y_z_scores) in
      if bool_decide (n_annotated + n_outliers ≤ MAX_ANNOTATIONS)
      then (t, [Debug_threshold t n_outliers])
      else
        let '(t', log) :=
          scan_thresholds ths' final n_annotated x_z_scores y_z_scores in
        (t', Debug_threshold t n_outliers :: log)
  end.

(** The thresholds of the records of [logger.debug]. *)
Definition logged_thresholds (log : list LogRecord) : list float :=
  omap (λ r, match r with
             | Debug_threshold t _ => Some t
             | Warning_same_coordinates _ _ => None
             end) log.

(** More than [MAX_ANNOTATIONS] points would be annotated at threshold [t]:
    the negation of the test of line 103. *)
Definition over_cap (n_annotated : nat) (x_z_scores y_z_scores : list float)
    (t : float) : Prop :=
  MAX_ANNOTATIONS < n_annotated
                    + count_nonzero (outlier_mask t x_z_scores y_z_scores).

Section SelectorViews.
Context `{NumPy}.

(** [x_z_scores] and [y_z_scores] of lines 96-97 for a dataset. *)
Definition selector_z_scores (self : Dataset) : list float * list float :=
  let cands := candidates (points self) in
  let x_values := (λ ip, x ip.2) <$> cands in
  let y_values := (λ ip, y ip.2) <$> cands in
  (z_scores x_values (np_std x_values), z_scores y_values (np_std y_values)).

(** The condition of line 90. *)
Definition zero_spread (self : Dataset) : bool :=
  let cands := candidates (points self) in
  PrimFloat.eqb (np_std ((λ ip, x ip.2) <$> cands)) 0%float
  && PrimFloat.eqb (np_std ((λ ip, y ip.2) <$> cands)) 0%float.

(** No threshold that the search tries brings the annotated points and
    the outliers within the cap. *)
Definition search_exhausted (self : Dataset) : Prop :=
  Forall (over_cap (count_annotated (points self))
            (selector_z_scores self).1 (selector_z_scores self).2)
         thresholds_tried.

End SelectorViews.

(* ================================================================== *)
(** * Relations between the points before and after *)
(* ================================================================== *)

(** What the selector does to one point: nothing, or, for a candidate,
    [point["annotation"] = point["name"]]. *)
Definition selector_effect (before after : Point) : Prop :=
  after = before ∨
  (is_candidate before = true ∧ after = annotate_with_name before).

(** [el] with other coordinates. *)
Definition move_to (xy : float * float) (el : Point) : Point :=
  {| x := xy.1; y := xy.2; name := name el;
     color := color el; group := group el;
     marker_size := marker_size el;
     marker_line_width := marker_line_width el;
     opacity := opacity el; annotate := annotate el;
     hide_in_legend := hide_in_legend el;
     annotation := annotation el |}.

(** The points with [annotate = False] moved to the coordinates that
    [xy] gives for their index; the candidates stay where they are. *)
Definition relocate_excluded (xy : nat → float * float) (points : list Point)
    : list Point :=
  imap (λ i el, if is_candidate el then el else move_to (xy i) el) points.

Definition with_points (self : Dataset) (points : list Point) : Dataset :=
  {| plot_id := plot_id self; trace_params := trace_params self;
     points := points |}.

(** The number of points whose annotation is a non-empty text. *)
Definition count_nonempty (points : list Point) : nat :=
  length (filter (λ el, annotation_nonempty el = true) points).

(** The traces that are legend entries for [key], with their points. *)
Definition legend_entries (key : legend_key) (points : list Point)
    (traces : list Trace) : list (Point * Trace) :=
  filter (λ pt, key_of pt.1 = key ∧ showlegend pt.2 = true) (zip points traces).

(** A point that may represent its key in the legend. *)
Definition visible (el : Point) : bool :=
  negb (bool_truthy (hide_in_legend el)).

(** The first point with [key] that is not hidden. *)
Definition representative (key : legend_key) (points : list Point)
    : option Point :=
  head (filter (λ el, key_of el = key ∧ visible el = true) points).

(** The traces that the loop of lines 123-171 adds for [points] when it
    starts with [in_legend], and the [in_legend] that it ends with. *)
Fixpoint traces_from (self : Dataset) (layout : Layout)
    (names : gmap legend_key (gset string)) (n_annotated : nat)
    (in_legend : gset legend_key) (points : list Point)
    : gset legend_key * list Trace :=
  match points with
  | [] => (in_legend, [])
  | element :: points' =>
      let '(in_legend', show_in_legend, label) :=
        legend_decision layout names in_legend element in
      let rest :=
        traces_from self layout names n_annotated in_legend' points' in
      (rest.1,
       scatter_trace self n_annotated element show_in_legend label :: rest.2)
  end.

(** A point with [annotate = False] moved to [xy]. *)
Definition relocate_point (xy : float * float) (el : Point) : Point :=
  if is_candidate el then el else move_to xy el.

(** The names of the points that carry [key]. *)
Definition names_of_key (key : legend_key) (points : list Point)
    : list string :=
  name <$> filter (λ el, key_of el = key) points.

(* ================================================================== *)
(** * Example datasets *)
(* ================================================================== *)

Definition plain_point (px py : float) (nm : string) : Point :=
  {| x := px; y := py; name := nm; color := None; group := None;
     marker_size := None; marker_line_width := None; opacity := None;
     annotate := None; hide_in_legend := None; annotation := None |}.

Definition with_annotate (b : bool) (el : Point) : Point :=
  {| x := x el; y := y el; name := name el;
     color := color el; group := group el;
     marker_size := marker_size el;
     marker_line_width := marker_line_width el;
     opacity := opacity el; annotate := Some b;
     hide_in_legend := hide_in_legend el;
     annotation := annotation el |}.

Definition with_hide_in_legend (b : bool) (el : Point) : Point :=
  {| x := x el; y := y el; name := name el;
     color := color el; group := group el;
     marker_size := marker_size el;
     marker_line_width := marker_line_width el;
     opacity := opacity el; annotate := annotate el;
     hide_in_legend := Some b;
     annotation := annotation el |}.

(** Nine annotated and 39 plain points at the origin, one point far out
    on each axis. *)
Definition crowded_points : list Point :=
  replicate 9 (set_annotation "control" (plain_point 0 0 "ctl"))
  ++ replicate 39 (plain_point 0 0 "bulk")
  ++ [plain_point 1 0 "far_x"; plain_point 0 1 "far_y"].

Definition crowded : Dataset := create "crowded" None crowded_points.

(** One point that the caller annotated with a text of its own. *)
Definition relabelled : Dataset :=
  create "relabelled" None [set_annotation "my label" (plain_point 1 2 "s1")].

(** Ten annotated points with [annotate = False] and one candidate. *)
Definition saturated_points : list Point :=
  replicate 10
    (with_annotate false (set_annotation "fixed" (plain_point 0 0 "ref")))
  ++ [plain_point 3 4 "only"].

Definition saturated : Dataset := create "saturated" None saturated_points.

(** A single candidate. *)
Definition lone : Dataset := create "lone" None [plain_point 3 4 "only"].

(** A cluster, one far point, and a point with [annotate = False]. *)
Definition mixed_points : list Point :=
  [ plain_point 0 0 "a"; plain_point 0 1 "b"; plain_point 1 0 "c";
    plain_point 1 1 "d"; plain_point 0 0 "e"; plain_point 1 1 "f";
    plain_point 9 9 "far";
    with_annotate false (plain_point 1000 1000 "excluded") ].

Definition mixed : Dataset := create "mixed" None mixed_points.

(** A point whose annotation is the empty text. *)
Definition blank_label : Dataset :=
  create "blank" (Some "markers")
    [with_annotate false (set_annotation "" (plain_point 1 2 "s1"))].

(** A single point with [hide_in_legend = True]. *)
Definition all_hidden : Dataset :=
  create "hidden" None [with_hide_in_legend true (plain_point 1 2 "s1")].

(** A hidden point and a shown point with the same key. *)
Definition half_hidden : Dataset :=
  create "half" None
    [ with_hide_in_legend true (plain_point 1 2 "ghost");
      plain_point 2 1 "shown" ].

Definition a_layout : Layout :=
  {| layout_showlegend := false; layout_height := 500 |}.

(** Three points of one key whose joined names exceed 60 characters. *)
Definition long_names : Dataset :=
  create "long" None
    [ plain_point 1 1 "sample_gamma_replicate_03";
      plain_point 2 2 "sample_alpha_replicate_01";
      plain_point 3 3 "sample_beta_replicate_02" ].

Definition styled_point (px py : float) (nm : string) (c : string)
    (g : option string) (size : Z) : Point :=
  {| x := px; y := py; name := nm; color := Some c; group := g;
     marker_size := Some size; marker_line_width := Some 1%Z;
     opacity := None; annotate := None; hide_in_legend := None;
     annotation := None |}.

(** Three red points and two blue points of the group ["Grp"]. *)
Definition two_keys : Dataset :=
  create "two_keys" None
    [ styled_point 0 0 "C" "red" None 10;
      styled_point 1 0 "A" "red" None 10;
      styled_point 0 1 "B" "red" None 10;
      styled_point 2 2 "E" "blue" (Some "Grp") 8;
      styled_point 3 2 "D" "blue" (Some "Grp") 8 ].

Definition red_key : legend_key := (Some "red", Some 10%Z, Some 1%Z, None).

Definition plain_key : legend_key := (None, None, None, None).

(** Only a point with [annotate = False]. *)
Definition only_excluded : Dataset :=
  create "excluded" None [with_annotate false (plain_point 5 5 "out")].

(** The empty dataset. *)
Definition no_points : Dataset := create "empty" None [].

(** Three points at the same place, with the same name. *)
Definition coincident : Dataset :=
  create "coincident" None (replicate 3 (plain_point 0 0 "s")).

(** Eleven points near the origin and one far away. *)
Definition cluster_and_far : Dataset :=
  create "cluster" None
    [ plain_point 0 0 "p0"; plain_point 1 0 "p1"; plain_point 2 0 "p2";
      plain_point 0 1 "p3"; plain_point 1 1 "p4"; plain_point 2 1 "p5";
      plain_point 0 2 "p6"; plain_point 1 2 "p7"; plain_point 2 2 "p8";
      plain_point 0 3 "p9"; plain_point 1 3 "p10";
      plain_point 1000 1000 "far" ].

(* ================================================================== *)
(** * The data file *)
(* ================================================================== *)

(** One [{"Name": ..., "X": ..., "Y": ...}] of [save_data_file]. *)
Record DataRow := mkDataRow {
  row_name : string;
  row_x : float;
  row_y : float;
}.

(** [save_data_file]: the arguments of the call of
    [util_functions.write_data_file(data, dataset.uid)]; [uid] is the
    field of the base dataset. *)
Definition save_data_file (uid : string) (dataset : Dataset)
    : list DataRow * string :=
  ((λ point, {| row_name := name point; row_x := x point;
                row_y := y point |}) <$> points dataset,
   uid).

(* ================================================================== *)
(** * Views of the selector and of the figure *)
(* ================================================================== *)

(** The indices at which the loop of lines 108-111 assigns. *)
Definition outlier_indices (threshold : float) (cands : list (nat * Point))
    (x_z_scores y_z_scores : list float) : list nat :=
  omap (λ '(ip, x_z_score, y_z_score),
          if is_outlier threshold x_z_score y_z_score
          then Some (ip : nat * Point).1 else None)
       (zip (zip cands x_z_scores) y_z_scores).

(** [point["annotation"] = point["name"]] at each index of [idxs]. *)
Definition annotate_at (idxs : list nat) (store : list Point) : list Point :=
  foldl (λ st i, alter annotate_with_name i st) store idxs.

(** The outlier counts of the records of [logger.debug]. *)
Definition logged_outliers (log : list LogRecord) : list nat :=
  omap (λ r, match r with
             | Debug_threshold _ n => Some n
             | Warning_same_coordinates _ _ => None
             end) log.

(** The legend flag and the name of each trace. *)
Definition legend_of (traces : list Trace) : list (bool * string) :=
  (λ tr, (showlegend tr, trace_name tr)) <$> traces.

(** The traces that are legend entries. *)
Definition shown_traces (traces : list Trace) : list Trace :=
  filter (λ tr, showlegend tr = true) traces.

(** Two points with the same legend key, name and [hide_in_legend]. *)
Definition same_legend_data (p q : Point) : Prop :=
  key_of q = key_of p ∧ name q = name p
  ∧ hide_in_legend q = hide_in_legend p.

(** The keys of the points that are not hidden. *)
Definition visible_keys (points : list Point) : gset legend_key :=
  list_to_set (key_of <$> filter (λ el, visible el = true) points).

(** [two_keys] with other coordinates, and one point annotated. *)
Definition two_keys_moved : Dataset :=
  create "two_keys_moved" (Some "markers")
    [ styled_point 5 5 "C" "red" None 10;
      set_annotation "note" (styled_point 6 5 "A" "red" None 10);
      styled_point 5 6 "B" "red" None 10;
      styled_point 7 7 "E" "blue" (Some "Grp") 8;
      styled_point 8 7 "D" "blue" (Some "Grp") 8 ].

(** Two points of one key with the same name. *)
Definition one_name : Dataset :=
  create "one_name" None
    [ styled_point 1 2 "ctrl" "grey" None 10;
      styled_point 2 1 "ctrl" "grey" None 10 ].

Definition grey_key : legend_key := (Some "grey", Some 10%Z, Some 1%Z, None).

(* ================================================================== *)
(** * Theorems *)
(* ================================================================== *)

Set Warnings "-clear-no-such-hyp".

(* ================================================================== *)
(** * The pairwise sum *)
(* ================================================================== *)

(** The recursion of the pairwise sum ends: the result is the same for
    every [fuel] that is at least the length of the array. *)
Lemma pairwise_sum_fuel fuel : ∀ fuel' a,
  length a ≤ fuel → length a ≤ fuel' →
  pairwise_sum fuel a = pairwise_sum fuel' a.
Proof.
  induction fuel as [|fuel IH]; intros fuel' a Hf Hf'.
  - destruct a; [|cbn in Hf; lia]. by destruct fuel'.
  - destruct fuel' as [|fuel']; [destruct a; [done|cbn in Hf'; lia]|].
    cbn [pairwise_sum]. case_bool_decide as H8; [done|].
    case_bool_decide as H128; [done|].
    unfold PW_BLOCKSIZE in H128.
    pose proof (Nat.Div0.mod_le (length a / 2) 8).
    pose proof (Nat.mod_upper_bound (length a / 2) 8 ltac:(done)).
    pose proof (Nat.Div0.div_le_upper_bound (length a) 2 (length a)).
    assert (64 ≤ length a / 2) by (apply Nat.div_le_lower_bound; lia).
    assert (length a / 2 < length a) by (apply Nat.div_lt; lia).
    f_equal; apply IH; rewrite ?length_take, ?length_drop; lia.
Qed.

(** Fewer than eight elements are added from the left. *)
Lemma np_sum_short a :
  length a < 8 →
  np_sum a = PrimFloat.add 0 (foldl PrimFloat.add (-0)%float a).
Proof.
  intros Hn. unfold np_sum. destruct a as [|v a]; [done|].
  cbn [length pairwise_sum]. by rewrite bool_decide_eq_true_2.
Qed.

(** Nine elements: the first eight are added two by two, then the
    ninth. *)
Example np_sum_nine :
  np_sum [1; 2; 3; 4; 5; 6; 7; 8; 9]%float
  = (0 + ((((1 + 2) + (3 + 4)) + ((5 + 6) + (7 + 8))) + 9))%float.
Proof. reflexivity. Qed.

(** The order matters in the last bits: ten times [0.1]. *)
Example np_sum_not_from_the_left :
  np_sum (replicate 10 0.1%float) = 1%float
  ∧ foldl PrimFloat.add 0%float (replicate 10 0.1%float)
    = 0.9999999999999999%float.
Proof. split; reflexivity. Qed.

(* ================================================================== *)
(** * The threshold search *)
(* ================================================================== *)

Lemma thresholds_tried_chain :
  threshold_chain thresholds_tried threshold_exhausted 1%float.
Proof. vm_compute. repeat split. Qed.

(** The values of a chain are at most [6.0]. *)
Lemma threshold_chain_le ths : ∀ final start,
  threshold_chain ths final start →
  Forall (λ u, PrimFloat.leb u 6 = true) ths.
Proof.
  induction ths as [|t ths IH]; intros final start Hc; [constructor|].
  destruct Hc as (-> & Hle & Hc). constructor; [done|]. by eapply IH.
Qed.

(** The value after a chain is its last value plus [0.2]. *)
Lemma threshold_chain_last ths : ∀ final start,
  threshold_chain ths final start →
  PrimFloat.leb start 6 = true →
  ∃ u, last ths = Some u ∧ final = PrimFloat.add u 0.2
       ∧ PrimFloat.leb u 6 = true ∧ PrimFloat.leb final 6 = false.
Proof.
  induction ths as [|t ths IH]; intros final start Hc Hstart.
  - destruct Hc as [_ Hle]. congruence.
  - destruct Hc as (-> & Hle & Hc). destruct ths as [|t' ths].
    + destruct Hc as [-> Hgt]. by exists start.
    + destruct (IH final _ Hc) as (u & Hlast & Hrest); [by destruct Hc as (<- & ? & _)|].
      exists u. split; [|done]. by rewrite last_cons_cons.
Qed.

Lemma threshold_loop_scan ths : ∀ final start fuel n xz yz,
  threshold_chain ths final start →
  length ths < fuel →
  threshold_loop fuel n xz yz start = Some (scan_thresholds ths final n xz yz).
Proof.
  induction ths as [|t ths IH]; intros final start fuel n xz yz Hc Hf.
  - destruct Hc as [-> Hle]. destruct fuel as [|fuel]; [simpl in Hf; lia|].
    simpl. by rewrite Hle.
  - destruct Hc as (-> & Hle & Hc). destruct fuel as [|fuel]; [simpl in Hf; lia|].
    simpl in Hf. simpl. rewrite Hle.
    case_bool_decide; [done|].
    rewrite (IH final _ fuel n xz yz Hc) by lia.
    simpl. by destruct (scan_thresholds ths final n xz yz).
Qed.

Lemma threshold_loop_enough_fuel fuel n xz yz :
  LOOP_FUEL ≤ fuel →
  threshold_loop fuel n xz yz 1%float
  = Some (scan_thresholds thresholds_tried threshold_exhausted n xz yz).
Proof.
  intros Hf. apply threshold_loop_scan; [apply thresholds_tried_chain|].
  unfold LOOP_FUEL in Hf. simpl. lia.
Qed.

Lemma scan_thresholds_log ths : ∀ final n xz yz,
  ∃ k, logged_thresholds (scan_thresholds ths final n xz yz).2 = take k ths
     ∧ (scan_thresholds ths final n xz yz).2
       = (λ t, Debug_threshold t (count_nonzero (outlier_mask t xz yz)))
         <$> take k ths.
Proof.
  induction ths as [|t ths IH]; intros final n xz yz.
  - by exists 0.
  - simpl. case_bool_decide.
    + by exists 1.
    + destruct (IH final n xz yz) as (k & Hk1 & Hk2).
      destruct (scan_thresholds ths final n xz yz) as [t' log].
      exists (S k). simpl in *. by rewrite Hk1, Hk2.
Qed.

Lemma scan_thresholds_result ths : ∀ final n xz yz,
  let r := scan_thresholds ths final n xz yz in
  (∃ before after,
      ths = before ++ r.1 :: after
      ∧ Forall (over_cap n xz yz) before
      ∧ n + count_nonzero (outlier_mask r.1 xz yz) ≤ MAX_ANNOTATIONS
      ∧ logged_thresholds r.2 = before ++ [r.1])
  ∨ (Forall (over_cap n xz yz) ths ∧ r.1 = final
     ∧ logged_thresholds r.2 = ths).
Proof.
  induction ths as [|t ths IH]; intros final n xz yz; simpl.
  - right. by repeat split.
  - case_bool_decide as Hcap.
    + left. exists [], ths. by repeat split.
    + specialize (IH final n xz yz).
      destruct (scan_thresholds ths final n xz yz) as [t' log]. simpl in *.
      assert (over_cap n xz yz t) as Ht by (unfold over_cap; lia).
      destruct IH as [(before & after & -> & Hb & Hfit & Hlog)|(Hall & -> & Hlog)].
      * left. exists (t :: before), after. repeat split; [by constructor|done|].
        simpl. by rewrite Hlog.
      * right. repeat split; [by constructor|]. by rewrite Hlog.
Qed.

(* ================================================================== *)
(** * The annotation steps *)
(* ================================================================== *)

Lemma annotate_with_name_idemp el :
  annotate_with_name (annotate_with_name el) = annotate_with_name el.
Proof. done. Qed.

Lemma is_candidate_annotate_with_name el :
  is_candidate (annotate_with_name el) = is_candidate el.
Proof. done. Qed.

Lemma count_annotated_cons el l :
  count_annotated (el :: l)
  = (if has_annotation el then 1 else 0) + count_annotated l.
Proof.
  unfold count_annotated. rewrite filter_cons.
  destruct (has_annotation el); by case_decide.
Qed.

Lemma has_annotation_annotate_with_name el :
  has_annotation (annotate_with_name el) = true.
Proof. done. Qed.

Lemma count_annotated_alter i : ∀ st,
  count_annotated (alter annotate_with_name i st) ≤ S (count_annotated st).
Proof.
  induction i as [|i IH]; intros [|el st]; try (cbn; lia).
  - change (alter annotate_with_name 0 (el :: st))
      with (annotate_with_name el :: st).
    rewrite !count_annotated_cons, has_annotation_annotate_with_name.
    destruct (has_annotation el); lia.
  - change (alter annotate_with_name (S i) (el :: st))
      with (el :: alter annotate_with_name i st).
    rewrite !count_annotated_cons. specialize (IH st). lia.
Qed.

Lemma candidates_lookup l i el :
  (i, el) ∈ candidates l ↔ l !! i = Some el ∧ is_candidate el = true.
Proof.
  unfold candidates. rewrite list_elem_of_filter, elem_of_lookup_imap. simpl.
  split.
  - intros (Hc & j & q & [= -> ->] & Hl). done.
  - intros (Hl & Hc). split; [done|]. by exists i, el.
Qed.

Lemma selector_effect_step before st i :
  (∃ el, before !! i = Some el ∧ is_candidate el = true) →
  Forall2 selector_effect before st →
  Forall2 selector_effect before (alter annotate_with_name i st).
Proof.
  intros (el & Hel & Hc) HF. apply Forall2_alter_r; [done|].
  intros p q Hp _ Hpq. rewrite Hel in Hp. injection Hp as <-.
  right. split; [done|]. by destruct Hpq as [->|[_ ->]].
Qed.

Lemma annotate_outliers_effect t before cands : ∀ xz yz st,
  (∀ ip, ip ∈ cands → before !! ip.1 = Some ip.2 ∧ is_candidate ip.2 = true) →
  Forall2 selector_effect before st →
  Forall2 selector_effect before (annotate_outliers t cands xz yz st).
Proof.
  unfold annotate_outliers.
  induction cands as [|ip cands IH]; intros xz yz st Hc HF; [done|].
  destruct xz as [|a xz]; [done|]. destruct yz as [|b yz]; [done|].
  simpl. apply IH.
  - intros ip' Hip'. apply Hc. by right.
  - destruct (is_outlier t a b); [|done].
    apply selector_effect_step; [|done].
    exists ip.2. apply Hc. by left.
Qed.

Lemma annotate_all_effect before cands : ∀ st,
  (∀ ip, ip ∈ cands → before !! ip.1 = Some ip.2 ∧ is_candidate ip.2 = true) →
  Forall2 selector_effect before st →
  Forall2 selector_effect before (annotate_all cands st).
Proof.
  unfold annotate_all.
  induction cands as [|ip cands IH]; intros st Hc HF; [done|].
  simpl. apply IH.
  - intros ip' Hip'. apply Hc. by right.
  - apply selector_effect_step; [|done]. exists ip.2. apply Hc. by left.
Qed.

Lemma annotate_outliers_count t cands : ∀ xz yz st,
  count_annotated (annotate_outliers t cands xz yz st)
  ≤ count_annotated st + count_nonzero (outlier_mask t xz yz).
Proof.
  unfold annotate_outliers.
  induction cands as [|ip cands IH]; intros xz yz st; [simpl; lia|].
  destruct xz as [|a xz]; [simpl; lia|]. destruct yz as [|b yz]; [simpl; lia|].
  simpl. etrans; [apply IH|].
  unfold is_outlier.
  destruct (PrimFloat.ltb t a || PrimFloat.ltb t b); simpl.
  - pose proof (count_annotated_alter ip.1 st).
    change (zip_with orb _ _) with (outlier_mask t xz yz). lia.
  - change (zip_with orb _ _) with (outlier_mask t xz yz). lia.
Qed.

Lemma annotate_all_count cands : ∀ st,
  count_annotated (annotate_all cands st) ≤ count_annotated st + length cands.
Proof.
  unfold annotate_all.
  induction cands as [|ip cands IH]; intros st; [simpl; lia|].
  simpl. etrans; [apply IH|].
  pose proof (count_annotated_alter ip.1 st). lia.
Qed.

Lemma selector_effect_refl l : Forall2 selector_effect l l.
Proof. apply Forall_Forall2_diag, Forall_forall. intros el _. by left. Qed.

Lemma candidates_sound l ip :
  ip ∈ candidates l → l !! ip.1 = Some ip.2 ∧ is_candidate ip.2 = true.
Proof. destruct ip as [i el]. apply candidates_lookup. Qed.

Lemma scan_thresholds_first t ths final n xz yz :
  n + count_nonzero (outlier_mask t xz yz) ≤ MAX_ANNOTATIONS →
  scan_thresholds (t :: ths) final n xz yz
  = (t, [Debug_threshold t (count_nonzero (outlier_mask t xz yz))]).
Proof. intros Hfit. simpl. by rewrite bool_decide_eq_true_2. Qed.

Local Arguments scan_thresholds : simpl never.

Section SelectorFacts.
Context `{NumPy}.

(** The three ways through the selector. *)
Lemma select_outliers_fuel_cases fuel self :
  LOOP_FUEL ≤ fuel →
  let pts := points self in
  let n := count_annotated pts in
  let cands := candidates pts in
  let zs := selector_z_scores self in
  let search := scan_thresholds thresholds_tried threshold_exhausted n zs.1 zs.2 in
  select_outliers_fuel fuel self =
    if bool_decide (n < MAX_ANNOTATIONS) then
      if zero_spread self then
        let store := if bool_decide (length cands = 1)
                     then annotate_all cands pts else pts in
        Some (store, count_annotated store,
              [Warning_same_coordinates (plot_id self) (length cands)])
      else
        let store := annotate_outliers search.1 cands zs.1 zs.2 pts in
        Some (store, count_annotated store, search.2)
    else Some (pts, n, []).
Proof.
  intros Hf. simpl. unfold select_outliers_fuel, zero_spread, selector_z_scores.
  simpl. case_bool_decide; [|done].
  destruct (_ && _); [done|].
  rewrite threshold_loop_enough_fuel by done. simpl.
  by destruct (scan_thresholds _ _ _ _ _).
Qed.

(** More fuel than [LOOP_FUEL] changes nothing. *)
Lemma select_outliers_fuel_irrelevant fuel self :
  LOOP_FUEL ≤ fuel → select_outliers_fuel fuel self = select_outliers self.
Proof.
  intros Hf. unfold select_outliers.
  by rewrite !select_outliers_fuel_cases.
Qed.

Lemma select_outliers_total self :
  ∃ st log, select_outliers self = Some (st, count_annotated st, log)
          ∧ length st = length (points self).
Proof.
  unfold select_outliers. rewrite select_outliers_fuel_cases by done. simpl.
  case_bool_decide.
  - destruct (zero_spread self).
    + eexists _, _. split; [done|]. case_bool_decide; [|done].
      symmetry. eapply Forall2_length, annotate_all_effect;
        [apply candidates_sound|apply selector_effect_refl].
    + eexists _, _. split; [done|].
      symmetry. eapply Forall2_length, annotate_outliers_effect;
        [apply candidates_sound|apply selector_effect_refl].
  - eexists _, _. by split.
Qed.

Lemma select_outliers_effect self st n log :
  select_outliers self = Some (st, n, log) →
  Forall2 selector_effect (points self) st.
Proof.
  unfold select_outliers. rewrite select_outliers_fuel_cases by done. simpl.
  case_bool_decide.
  - destruct (zero_spread self); intros [= <- <- <-].
    + case_bool_decide; [|apply selector_effect_refl].
      apply annotate_all_effect;
        [apply candidates_sound|apply selector_effect_refl].
    + apply annotate_outliers_effect;
        [apply candidates_sound|apply selector_effect_refl].
  - intros [= <- <- <-]. apply selector_effect_refl.
Qed.

Lemma select_outliers_bound self st n log :
  select_outliers self = Some (st, n, log) →
  count_annotated st ≤ MAX_ANNOTATIONS
  ∨ (MAX_ANNOTATIONS ≤ count_annotated (points self) ∧ st = points self)
  ∨ (zero_spread self = false ∧ search_exhausted self).
Proof.
  unfold select_outliers. rewrite select_outliers_fuel_cases by done. simpl.
  case_bool_decide as Hn.
  - destruct (zero_spread self) eqn:Hz; intros [= <- <- <-].
    + left. case_bool_decide as Hone; [|lia].
      pose proof (annotate_all_count (candidates (points self)) (points self)).
      lia.
    + pose proof (scan_thresholds_result thresholds_tried threshold_exhausted
        (count_annotated (points self)) (selector_z_scores self).1
        (selector_z_scores self).2) as Hscan. simpl in Hscan.
      destruct Hscan as [(before & after & _ & _ & Hfit & _)|(Hall & _)].
      * left. etrans; [apply annotate_outliers_count|done].
      * right; right. done.
  - intros [= <- <- <-]. right; left. split; [lia|done].
Qed.

End SelectorFacts.

(* ================================================================== *)
(** * Points with [annotate = False] *)
(* ================================================================== *)

Lemma relocate_excluded_cons xy el l :
  relocate_excluded xy (el :: l)
  = relocate_point (xy 0) el :: relocate_excluded (xy ∘ S) l.
Proof. done. Qed.

Lemma is_candidate_relocate_point xy el :
  is_candidate (relocate_point xy el) = is_candidate el.
Proof. unfold relocate_point. by destruct (is_candidate el) eqn:E. Qed.

Lemma has_annotation_relocate_point xy el :
  has_annotation (relocate_point xy el) = has_annotation el.
Proof. unfold relocate_point. by destruct (is_candidate el). Qed.

Lemma relocate_point_annotate xy el :
  annotate_with_name (relocate_point xy el)
  = relocate_point xy (annotate_with_name el).
Proof.
  unfold relocate_point. rewrite is_candidate_annotate_with_name.
  by destruct (is_candidate el).
Qed.

Lemma count_annotated_relocate l : ∀ xy,
  count_annotated (relocate_excluded xy l) = count_annotated l.
Proof.
  induction l as [|el l IH]; intros xy; [done|].
  rewrite relocate_excluded_cons, !count_annotated_cons, IH.
  by rewrite has_annotation_relocate_point.
Qed.

Lemma candidates_relocate_from l : ∀ (g : nat → nat) xy,
  filter (λ ip : nat * Point, is_candidate ip.2 = true)
         (imap (λ i, pair (g i)) (relocate_excluded xy l))
  = filter (λ ip : nat * Point, is_candidate ip.2 = true)
           (imap (λ i, pair (g i)) l).
Proof.
  induction l as [|el l IH]; intros g xy; [done|].
  rewrite relocate_excluded_cons, !imap_cons, !filter_cons. simpl.
  rewrite is_candidate_relocate_point.
  specialize (IH (g ∘ S) (xy ∘ S)). unfold compose in *. rewrite IH.
  case_decide as Hc; [|done].
  unfold relocate_point. by rewrite Hc.
Qed.

Lemma candidates_relocate xy l :
  candidates (relocate_excluded xy l) = candidates l.
Proof. apply (candidates_relocate_from l id xy). Qed.

Lemma alter_relocate i : ∀ l xy,
  alter annotate_with_name i (relocate_excluded xy l)
  = relocate_excluded xy (alter annotate_with_name i l).
Proof.
  induction i as [|i IH]; intros [|el l] xy; try done.
  - change (alter annotate_with_name 0 (el :: l))
      with (annotate_with_name el :: l).
    rewrite !relocate_excluded_cons.
    change (alter ?f 0 (?a :: ?k)) with (f a :: k).
    by rewrite relocate_point_annotate.
  - change (alter annotate_with_name (S i) (el :: l))
      with (el :: alter annotate_with_name i l).
    rewrite !relocate_excluded_cons.
    change (alter ?f (S i) (?a :: ?k)) with (a :: alter f i k).
    by rewrite IH.
Qed.

Lemma annotate_outliers_relocate t xy cands : ∀ xz yz st,
  annotate_outliers t cands xz yz (relocate_excluded xy st)
  = relocate_excluded xy (annotate_outliers t cands xz yz st).
Proof.
  unfold annotate_outliers.
  induction cands as [|ip cands IH]; intros xz yz st; [done|].
  destruct xz as [|a xz]; [done|]. destruct yz as [|b yz]; [done|].
  simpl. destruct (is_outlier t a b); [|apply IH].
  rewrite alter_relocate. apply IH.
Qed.

Lemma annotate_all_relocate xy cands : ∀ st,
  annotate_all cands (relocate_excluded xy st)
  = relocate_excluded xy (annotate_all cands st).
Proof.
  unfold annotate_all.
  induction cands as [|ip cands IH]; intros st; [done|].
  simpl. rewrite alter_relocate. apply IH.
Qed.

Lemma relocate_excluded_lookup xy l i el :
  l !! i = Some el → is_candidate el = false →
  relocate_excluded xy l !! i = Some (move_to (xy i) el).
Proof.
  intros Hl Hc. unfold relocate_excluded.
  rewrite list_lookup_imap, Hl. simpl. by rewrite Hc.
Qed.

Section Excluded.
Context `{NumPy}.

Lemma selector_z_scores_relocate self xy :
  selector_z_scores (with_points self (relocate_excluded xy (points self)))
  = selector_z_scores self.
Proof. unfold selector_z_scores. simpl. by rewrite candidates_relocate. Qed.

Lemma zero_spread_relocate self xy :
  zero_spread (with_points self (relocate_excluded xy (points self)))
  = zero_spread self.
Proof. unfold zero_spread. simpl. by rewrite candidates_relocate. Qed.

Lemma select_outliers_relocate self xy :
  select_outliers (with_points self (relocate_excluded xy (points self)))
  = (λ r, (relocate_excluded xy r.1.1, r.1.2, r.2)) <$> select_outliers self.
Proof.
  unfold select_outliers. rewrite !select_outliers_fuel_cases by done.
  cbv zeta. rewrite selector_z_scores_relocate, zero_spread_relocate.
  cbn [points plot_id with_points].
  rewrite candidates_relocate, count_annotated_relocate.
  case_bool_decide; [|done].
  destruct (zero_spread self).
  - case_bool_decide; cbn; [|by rewrite count_annotated_relocate].
    by rewrite annotate_all_relocate, count_annotated_relocate.
  - cbn. by rewrite annotate_outliers_relocate, count_annotated_relocate.
Qed.

Lemma select_outliers_excluded self st n log :
  select_outliers self = Some (st, n, log) →
  Forall2 (λ before after, is_candidate before = false → after = before)
          (points self) st.
Proof.
  intros Hsel. apply select_outliers_effect in Hsel.
  eapply Forall2_impl; [exact Hsel|].
  intros p q [->|[Hc _]] Hn; [done|congruence].
Qed.

End Excluded.

(* ================================================================== *)
(** * The names of a legend key *)
(* ================================================================== *)

Lemma names_of_key_cons key el l :
  names_of_key key (el :: l)
  = if decide (key_of el = key) then name el :: names_of_key key l
    else names_of_key key l.
Proof. unfold names_of_key. rewrite filter_cons. by case_decide. Qed.

Lemma add_name_lookup names el key :
  default ∅ (add_name names el !! key)
  = if decide (key_of el = key)
    then default ∅ (names !! key) ∪ {[name el]}
    else default ∅ (names !! key).
Proof.
  unfold add_name. case_decide as Hk.
  - subst key. by rewrite lookup_insert_eq.
  - by rewrite lookup_insert_ne.
Qed.

Lemma foldl_add_name_lookup l : ∀ names key,
  default ∅ (foldl add_name names l !! key)
  = default ∅ (names !! key) ∪ list_to_set (names_of_key key l).
Proof.
  induction l as [|el l IH]; intros names key.
  - simpl. set_solver.
  - simpl. rewrite IH, add_name_lookup, names_of_key_cons.
    case_decide; set_solver.
Qed.

Lemma names_by_legend_key_lookup l key :
  default ∅ (names_by_legend_key l !! key) = list_to_set (names_of_key key l).
Proof.
  unfold names_by_legend_key. rewrite foldl_add_name_lookup, lookup_empty.
  set_solver.
Qed.

Lemma foldl_add_name_is_Some l : ∀ names key,
  is_Some (foldl add_name names l !! key)
  ↔ is_Some (names !! key) ∨ key ∈ key_of <$> l.
Proof.
  induction l as [|el l IH]; intros names key.
  - simpl. set_solver.
  - simpl. rewrite IH. unfold add_name.
    destruct (decide (key_of el = key)) as [<-|Hne].
    + rewrite lookup_insert_eq. set_solver.
    + rewrite lookup_insert_ne by done. set_solver.
Qed.

(** [names_by_legend_key.get(key)] is never [None] at line 135. *)
Lemma names_by_legend_key_is_Some l el :
  el ∈ l → is_Some (names_by_legend_key l !! key_of el).
Proof.
  intros Hel. apply foldl_add_name_is_Some. right. by apply list_elem_of_fmap_2.
Qed.

Lemma sorted_spec (s : gset string) :
  Sorted String.le (sorted s) ∧ NoDup (sorted s)
  ∧ ∀ n, n ∈ sorted s ↔ n ∈ s.
Proof.
  unfold sorted. split; [apply Sorted_merge_sort; apply _|]. split.
  - rewrite merge_sort_Permutation. apply NoDup_elements.
  - intros n. rewrite merge_sort_Permutation. apply elem_of_elements.
Qed.

(* ================================================================== *)
(** * Cropping *)
(* ================================================================== *)

Lemma length_string_app (s1 s2 : string) :
  String.length (s1 +:+ s2) = String.length s1 + String.length s2.
Proof. induction s1 as [|c s1 IH]; simpl; [done|]. by rewrite IH. Qed.

Lemma length_substring_0 n : ∀ s,
  n ≤ String.length s → String.length (substring 0 n s) = n.
Proof.
  induction n as [|n IH]; intros [|c s] Hn; simpl in *; try done; try lia.
  rewrite IH; [done|lia].
Qed.

Lemma crop_label_spec label :
  (MAX_WIDTH < String.length label →
     crop_label label = substring 0 MAX_WIDTH label +:+ "..."
     ∧ String.length (crop_label label) = MAX_WIDTH + 3)
  ∧ (String.length label ≤ MAX_WIDTH → crop_label label = label).
Proof.
  unfold crop_label. split; intros Hlen.
  - rewrite bool_decide_eq_true_2 by done. split; [done|].
    rewrite length_string_app, length_substring_0 by lia. done.
  - rewrite bool_decide_eq_false_2 by lia. done.
Qed.

(* ================================================================== *)
(** * The loop over the points *)
(* ================================================================== *)

Lemma foldl_add_trace self layout names n l : ∀ state,
  foldl (add_trace self layout names n) state l
  = ((traces_from self layout names n state.1 l).1,
     state.2 ++ (traces_from self layout names n state.1 l).2).
Proof.
  induction l as [|el l IH]; intros [S T].
  - simpl. by rewrite app_nil_r.
  - simpl. rewrite IH. unfold add_trace. simpl.
    destruct (legend_decision layout names S el) as [[S' show] label].
    simpl. by rewrite <- app_assoc.
Qed.

Lemma build_figure_traces self layout n store :
  fig_traces (build_figure self layout n store)
  = (traces_from self (layout_after layout)
       (names_by_legend_key store) n ∅ store).2.
Proof.
  unfold build_figure. rewrite foldl_add_trace. done.
Qed.

Lemma build_figure_layout self layout n store :
  fig_layout (build_figure self layout n store)
  = {| layout_showlegend := layout_showlegend layout;
       layout_height :=
         (layout_height layout
          + Z.of_nat
              (size (traces_from self (layout_after layout)
                       (names_by_legend_key store) n ∅ store).1) * 5)%Z |}.
Proof. unfold build_figure. by rewrite foldl_add_trace. Qed.

Lemma traces_from_points self layout names n l : ∀ S,
  Forall2 (λ el tr,
             ∃ show label, tr = scatter_trace self n el show label)
          l (traces_from self layout names n S l).2.
Proof.
  induction l as [|el l IH]; intros S; simpl; [constructor|].
  destruct (legend_decision layout names S el) as [[S' show] label].
  simpl. constructor; [by exists show, label|apply IH].
Qed.

(** The loop reads the trace parameters of the dataset only, and the
    [showlegend] of the layout. *)
Lemma traces_from_params self self' layout layout' names n l : ∀ S,
  trace_params self' = trace_params self →
  layout_showlegend layout' = layout_showlegend layout →
  traces_from self' layout' names n S l = traces_from self layout names n S l.
Proof.
  intros S Hp Hl. revert S.
  induction l as [|el l IH]; intros S; [done|].
  cbn. unfold legend_decision. rewrite Hl.
  destruct (layout_showlegend layout && _); [case_bool_decide|];
    rewrite IH; unfold scatter_trace; by rewrite Hp.
Qed.

Lemma representative_cons key el l :
  representative key (el :: l)
  = if decide (key_of el = key ∧ visible el = true) then Some el
    else representative key l.
Proof. unfold representative. rewrite filter_cons. by case_decide. Qed.

Lemma legend_entries_cons key el tr l trs :
  legend_entries key (el :: l) (tr :: trs)
  = if decide (key_of el = key ∧ showlegend tr = true)
    then (el, tr) :: legend_entries key l trs
    else legend_entries key l trs.
Proof. unfold legend_entries. simpl. by rewrite filter_cons. Qed.

Lemma legend_entries_from self layout names n key l : ∀ S,
  layout_showlegend layout = true →
  legend_entries key l (traces_from self layout names n S l).2
  = if decide (key ∈ S) then []
    else match representative key l with
         | Some el =>
             [(el, scatter_trace self n el true
                     (legend_label names key (group el)))]
         | None => []
         end.
Proof.
  intros S Hshow. revert S.
  induction l as [|el l IH]; intros S.
  - simpl. by case_decide.
  - simpl. unfold legend_decision. rewrite Hshow. simpl.
    fold (visible el). rewrite representative_cons.
    destruct (visible el) eqn:Hvis; simpl.
    + case_bool_decide as Hin; simpl.
      * rewrite legend_entries_cons. simpl.
        rewrite decide_False by (intros [_ ?]; done).
        rewrite IH. case_decide; [done|].
        rewrite decide_False; [done|]. intros [<- _]. done.
      * rewrite legend_entries_cons. simpl. rewrite IH.
        destruct (decide (key_of el = key)) as [<-|Hne].
        -- rewrite decide_True by done.
           rewrite (decide_True (P := key_of el ∈ {[key_of el]} ∪ S))
             by set_solver.
           rewrite decide_False by done. by rewrite decide_True.
        -- rewrite decide_False by (intros [? _]; done).
           rewrite (decide_False (P := key_of el = key ∧ true = true))
             by (intros [? _]; done).
           destruct (decide (key ∈ S)) as [HS|HS].
           ++ rewrite decide_True by set_solver. done.
           ++ rewrite decide_False by set_solver. done.
    + rewrite legend_entries_cons. simpl.
      rewrite decide_False by (intros [_ ?]; done).
      rewrite IH. rewrite (decide_False (P := key_of el = key ∧ false = true))
        by (intros [_ ?]; done). done.
Qed.

Lemma representative_None key l :
  representative key l = None
  ↔ ∀ el, el ∈ l → key_of el = key → visible el = false.
Proof.
  unfold representative. rewrite head_None. split.
  - intros Hnil el Hel Hk. destruct (visible el) eqn:Hv; [|done].
    assert (el ∈ filter (λ el, key_of el = key ∧ visible el = true) l) as Hin
      by (apply list_elem_of_filter; done).
    rewrite Hnil in Hin. by apply elem_of_nil in Hin.
  - intros Hall.
    destruct (filter _ l) as [|el k] eqn:Hf; [done|].
    assert (el ∈ filter (λ el, key_of el = key ∧ visible el = true) l) as Hin
      by (rewrite Hf; left).
    apply list_elem_of_filter in Hin as [[Hk Hv] Hel].
    specialize (Hall el Hel Hk). congruence.
Qed.

Lemma representative_Some key l el :
  representative key l = Some el →
  el ∈ l ∧ key_of el = key ∧ visible el = true.
Proof.
  unfold representative. intros Hh. apply head_Some_elem_of in Hh.
  apply list_elem_of_filter in Hh. tauto.
Qed.

Lemma count_nonempty_le l : count_nonempty l ≤ count_annotated l.
Proof.
  unfold count_nonempty, count_annotated.
  induction l as [|el l IH]; [done|].
  rewrite !filter_cons.
  destruct (decide (annotation_nonempty el = true)) as [Hne|Hne],
           (decide (has_annotation el = true)) as [Hh|Hh]; simpl; try lia.
  exfalso. unfold annotation_nonempty, has_annotation in *.
  by destruct (annotation el).
Qed.

Lemma outlier_mask_or t xz : ∀ yz,
  outlier_mask t xz yz
  = zip_with (λ a b, PrimFloat.ltb t a || PrimFloat.ltb t b) xz yz.
Proof.
  unfold outlier_mask.
  induction xz as [|a xz IH]; intros [|b yz]; simpl; try done.
  by rewrite IH.
Qed.


Lemma candidates_single l i el :
  length (candidates l) = 1 → l !! i = Some el → is_candidate el = true →
  candidates l = [(i, el)].
Proof.
  intros Hlen Hl Hc.
  assert ((i, el) ∈ candidates l) as Hin by (by apply candidates_lookup).
  destruct (candidates l) as [|ip [|ip' k]]; simpl in Hlen; try lia.
  apply list_elem_of_singleton in Hin. by subst.
Qed.

Section Claims.
Context `{NumPy}.

Lemma z_scores_nil std : z_scores [] std = [].
Proof. unfold z_scores. by destruct (negb _). Qed.

(** C1 (as amended): after the selector has run, at most [MAX_ANNOTATIONS]
    points carry a non-empty annotation, unless more than that many did
    before, or none of the thresholds that the search tries brings the
    annotated points and the outliers within the cap.  The same holds for
    the points that carry an annotation, empty or not; when
    [MAX_ANNOTATIONS] or more of them do before, the selector changes
    nothing.  A point that carried an annotation still carries one. *)
Theorem selector_cap_unless_exhausted (self : Dataset) :
  ∃ st log,
    select_outliers self = Some (st, count_annotated st, log)
    ∧ (count_nonempty st ≤ MAX_ANNOTATIONS
       ∨ MAX_ANNOTATIONS < count_nonempty (points self)
       ∨ (zero_spread self = false ∧ search_exhausted self))
    ∧ (count_annotated st ≤ MAX_ANNOTATIONS
       ∨ (MAX_ANNOTATIONS ≤ count_annotated (points self)
          ∧ st = points self)
       ∨ (zero_spread self = false ∧ search_exhausted self))
    ∧ Forall2 (λ before after,
                 has_annotation before = true → has_annotation after = true)
              (points self) st.
Proof.
  destruct (select_outliers_total self) as (st & log & Hsel & _).
  exists st, log. split; [done|].
  pose proof (select_outliers_bound _ _ _ _ Hsel) as Hbound.
  pose proof (count_nonempty_le st) as Hle.
  split; [|split; [done|]].
  - destruct Hbound as [Hcap|[[_ ->]|Hex]]; [left; lia| |by right; right].
    destruct (decide (count_nonempty (points self) ≤ MAX_ANNOTATIONS));
      [by left|right; left; lia].
  - eapply Forall2_impl; [by eapply select_outliers_effect|].
    by intros p q [->|[_ ->]] Hp.
Qed.

(** C2 (as amended): the search starts at [1.0] and adds [0.2] to the
    threshold as long as [threshold <= 6.0]; at each threshold that it
    tries it counts the candidates whose x or y Z-score exceeds it, and
    logs the threshold and the count.  It stops at the first threshold
    at which [n_annotated + n_outliers <= 10], and that one is the
    threshold of the annotation step.  If no threshold that it tries
    does, the annotation step uses not the last threshold tried but the
    next value of the loop variable, the last threshold tried plus [0.2],
    which is above [6.0] and at which nothing was counted. *)
Theorem threshold_search_steps (self : Dataset) (fuel : nat) :
  LOOP_FUEL ≤ fuel →
  count_annotated (points self) < MAX_ANNOTATIONS →
  zero_spread self = false →
  let n := count_annotated (points self) in
  let zs := selector_z_scores self in
  ∃ t log,
    threshold_loop fuel n zs.1 zs.2 1 = Some (t, log)
    ∧ select_outliers_fuel fuel self
      = Some (annotate_outliers t (candidates (points self)) zs.1 zs.2
                (points self),
              count_annotated
                (annotate_outliers t (candidates (points self)) zs.1 zs.2
                   (points self)),
              log)
    ∧ log = (λ u, Debug_threshold u
                    (count_nonzero
                       (zip_with (λ a b, PrimFloat.ltb u a || PrimFloat.ltb u b)
                          zs.1 zs.2)))
            <$> logged_thresholds log
    ∧ (∃ rest final, threshold_chain (logged_thresholds log ++ rest) final 1)
    ∧ ((∃ before,
           logged_thresholds log = before ++ [t]
           ∧ Forall (over_cap n zs.1 zs.2) before
           ∧ n + count_nonzero (outlier_mask t zs.1 zs.2) ≤ MAX_ANNOTATIONS
           ∧ PrimFloat.leb t 6 = true)
       ∨ (Forall (over_cap n zs.1 zs.2) (logged_thresholds log)
          ∧ threshold_chain (logged_thresholds log) t 1
          ∧ ∃ u, last (logged_thresholds log) = Some u
                 ∧ t = PrimFloat.add u 0.2
                 ∧ PrimFloat.leb u 6 = true
                 ∧ PrimFloat.leb t 6 = false)).
Proof.
  intros Hfuel Hn Hz n zs.
  pose proof (scan_thresholds_result thresholds_tried threshold_exhausted
                n zs.1 zs.2) as Hres.
  destruct (scan_thresholds_log thresholds_tried threshold_exhausted
              n zs.1 zs.2) as (k & Hk1 & Hk2).
  pose proof (select_outliers_fuel_cases fuel self Hfuel) as Hsel.
  cbv zeta in Hsel, Hres. fold n zs in Hsel.
  rewrite bool_decide_eq_true_2, Hz in Hsel by done.
  destruct (scan_thresholds thresholds_tried threshold_exhausted n zs.1 zs.2)
    as [t log] eqn:Hscan.
  exists t, log. cbn [fst snd] in *.
  split; [by rewrite threshold_loop_enough_fuel, Hscan|].
  split; [done|]. split.
  { rewrite Hk1, Hk2. apply list_fmap_ext. intros _ u _.
    by rewrite outlier_mask_or. }
  pose proof thresholds_tried_chain as Hchain.
  destruct Hres as [(before & after & Htried & Hover & Hfit & Hlog)
                   |(Hover & -> & Hlog)].
  - split.
    + exists after, threshold_exhausted.
      rewrite Hlog, <- app_assoc. change ([t] ++ after) with (t :: after).
      by rewrite <- Htried.
    + left. exists before. split; [done|]. split; [done|]. split; [done|].
      apply threshold_chain_le in Hchain. rewrite Htried in Hchain.
      apply Forall_app in Hchain as [_ Hchain].
      by apply Forall_cons_1 in Hchain as [? _].
  - rewrite Hlog. split.
    + exists [], threshold_exhausted. by rewrite app_nil_r.
    + right. split; [done|]. split; [done|].
      by apply (threshold_chain_last _ _ 1%float).
Qed.

(** C5 (as amended): if fewer than [MAX_ANNOTATIONS] points carry an
    annotation, the dataset has exactly one candidate, and the standard
    deviation of its one x value and of its one y value is zero, the
    selector sets the annotation of that point to its name. *)
Theorem single_candidate_annotated (self : Dataset) (i : nat) (el : Point) :
  count_annotated (points self) < MAX_ANNOTATIONS →
  length (candidates (points self)) = 1 →
  points self !! i = Some el →
  is_candidate el = true →
  PrimFloat.eqb (np_std [x el]) 0 = true →
  PrimFloat.eqb (np_std [y el]) 0 = true →
  ∃ st log,
    select_outliers self = Some (st, count_annotated st, log)
    ∧ st = alter annotate_with_name i (points self)
    ∧ st !! i = Some (annotate_with_name el)
    ∧ annotation (annotate_with_name el) = Some (name el).
Proof.
  intros Hn Hlen Hl Hc Hx Hy.
  pose proof (candidates_single _ _ _ Hlen Hl Hc) as Hcands.
  unfold select_outliers. rewrite select_outliers_fuel_cases by done.
  cbv zeta. rewrite bool_decide_eq_true_2 by done.
  unfold zero_spread. rewrite Hcands. simpl. rewrite Hx, Hy. simpl.
  eexists _, _. split; [done|]. split; [done|]. split; [|done].
  by rewrite list_lookup_alter_eq, Hl.
Qed.

(** C6: the selector leaves every point with [annotate = False] as it is,
    and it does not read the coordinates of these points: moving them
    anywhere changes neither the Z-scores, nor the thresholds tried and
    the outliers counted at each (the log), nor the annotations that the
    points have afterwards. *)
Theorem excluded_points_ignored (self : Dataset) (xy : nat → float * float) :
  ∃ st log,
    select_outliers self = Some (st, count_annotated st, log)
    ∧ Forall2 (λ before after, is_candidate before = false → after = before)
              (points self) st
    ∧ selector_z_scores
        (with_points self (relocate_excluded xy (points self)))
      = selector_z_scores self
    ∧ select_outliers (with_points self (relocate_excluded xy (points self)))
      = Some (relocate_excluded xy st, count_annotated st, log)
    ∧ annotation <$> relocate_excluded xy st = annotation <$> st.
Proof.
  destruct (select_outliers_total self) as (st & log & Hsel & _).
  exists st, log. split; [done|].
  split; [by eapply select_outliers_excluded|].
  split; [apply selector_z_scores_relocate|].
  split; [by rewrite select_outliers_relocate, Hsel|].
  unfold relocate_excluded. rewrite fmap_imap.
  rewrite <- (imap_const annotation st). apply imap_ext.
  intros j p _. simpl. by destruct (is_candidate p).
Qed.

(** C8 (as amended): the selector always returns.  When no point is a
    candidate it returns the points as they are: it does nothing when
    [MAX_ANNOTATIONS] points are annotated already; otherwise it takes
    the zero-spread branch (and logs the warning) only if NumPy gives a
    zero standard deviation for the empty array, and else runs the search
    on empty Z-scores, which stops at [1.0] with no outlier. *)
Theorem selector_total_and_idle_without_candidates (self : Dataset) :
  (∃ st log,
     select_outliers self = Some (st, count_annotated st, log)
     ∧ length st = length (points self))
  ∧ (candidates (points self) = [] →
     ∃ log,
       select_outliers self
       = Some (points self, count_annotated (points self), log)
       ∧ log = if bool_decide (count_annotated (points self) < MAX_ANNOTATIONS)
               then if PrimFloat.eqb (np_std []) 0
                    then [Warning_same_coordinates (plot_id self) 0]
                    else [Debug_threshold 1 0]
               else []).
Proof.
  split; [apply select_outliers_total|].
  intros Hnone. unfold select_outliers.
  rewrite select_outliers_fuel_cases by done. cbv zeta.
  unfold zero_spread, selector_z_scores. rewrite Hnone. simpl.
  rewrite !z_scores_nil.
  case_bool_decide as Hn; [|by eexists].
  destruct (PrimFloat.eqb (np_std []) 0) eqn:Hstd; simpl.
  - by eexists.
  - unfold thresholds_tried.
    rewrite scan_thresholds_first by (simpl; unfold MAX_ANNOTATIONS in *; lia).
    by eexists.
Qed.

End Claims.

Lemma selector_effect_legend before after :
  selector_effect before after →
  key_of after = key_of before ∧ name after = name before
  ∧ hide_in_legend after = hide_in_legend before.
Proof. by intros [->|[_ ->]]. Qed.

Lemma legend_entries_elem key l trs el tr :
  (el, tr) ∈ legend_entries key l trs → key_of el = key ∧ showlegend tr = true.
Proof. unfold legend_entries. rewrite list_elem_of_filter. naive_solver. Qed.

Section Figure.
Context `{NumPy}.

(** [create_figure] returns, and its traces are those of the loop started
    with an empty [in_legend] on the points that the selector left. *)
Lemma create_figure_traces (self : Dataset) (layout : Layout) :
  ∃ fig store log,
    create_figure self layout = Some (fig, store, log)
    ∧ select_outliers self = Some (store, count_annotated store, log)
    ∧ fig_traces fig
      = (traces_from self (layout_after layout)
           (names_by_legend_key store) (count_annotated store) ∅ store).2.
Proof.
  destruct (select_outliers_total self) as (st & log & Hsel & _).
  exists (build_figure self layout (count_annotated st) st), st, log.
  unfold create_figure. rewrite Hsel. simpl.
  split; [done|]. split; [done|]. apply build_figure_traces.
Qed.

Lemma create_figure_entries (self : Dataset) (layout : Layout) :
  ∃ fig store log,
    create_figure self layout = Some (fig, store, log)
    ∧ Forall2 selector_effect (points self) store
    ∧ Forall2 (λ el tr, ∃ show label,
                 tr = scatter_trace self (count_annotated store) el show label)
              store (fig_traces fig)
    ∧ ∀ key,
        legend_entries key store (fig_traces fig)
        = match representative key store with
          | Some el =>
              [(el, scatter_trace self (count_annotated store) el true
                      (legend_label (names_by_legend_key store) key (group el)))]
          | None => []
          end.
Proof.
  destruct (create_figure_traces self layout)
    as (fig & st & log & Hfig & Hsel & Htr).
  exists fig, st, log. split; [done|].
  split; [by eapply select_outliers_effect|].
  rewrite Htr. split; [apply traces_from_points|].
  intros key. rewrite legend_entries_from by done.
  rewrite decide_False by set_solver. done.
Qed.

(** C4 (as amended): a legend key that some point without
    [hide_in_legend] carries has exactly one legend entry, the trace of
    the first such point; its label is the list of the distinct names of
    all the points with that key, sorted and joined with commas, with the
    group and a colon in front when the group is a non-empty text, and
    cropped as in C9.  A key whose points are all hidden has no entry. *)
Theorem legend_one_entry_per_visible_key (self : Dataset) (layout : Layout) :
  ∃ fig store log,
    create_figure self layout = Some (fig, store, log)
    ∧ Forall2 (λ before after,
                 key_of after = key_of before ∧ name after = name before
                 ∧ hide_in_legend after = hide_in_legend before)
              (points self) store
    ∧ length (fig_traces fig) = length store
    ∧ ∀ key,
        match representative key store with
        | Some el =>
            ∃ tr names,
              legend_entries key store (fig_traces fig) = [(el, tr)]
              ∧ Sorted String.le names ∧ NoDup names
              ∧ (∀ n, n ∈ names ↔ n ∈ names_of_key key store)
              ∧ trace_name tr
                = crop_label (with_group (group el) (join_names names))
        | None => legend_entries key store (fig_traces fig) = []
        end.
Proof.
  destruct (create_figure_entries self layout)
    as (fig & st & log & Hfig & Heff & Htr & Hent).
  exists fig, st, log. split; [done|].
  split; [eapply Forall2_impl; [exact Heff|apply selector_effect_legend]|].
  split; [symmetry; by eapply Forall2_length|].
  intros key. rewrite Hent.
  destruct (representative key st) as [el|]; [|done].
  eexists _, (sorted (default ∅ (names_by_legend_key st !! key))).
  split; [done|].
  destruct (sorted_spec (default ∅ (names_by_legend_key st !! key)))
    as (Hs & Hnd & Hin).
  split; [done|]. split; [done|]. split; [|done].
  intros n. rewrite Hin, names_by_legend_key_lookup. set_solver.
Qed.

(** C7 (as amended): a point is emitted in annotation mode (trace mode
    ["markers+text"]) when its annotation, as the selector left it, is a
    non-empty text; a point without annotation, or with the empty text as
    annotation, keeps the mode of the trace parameters of the dataset. *)
Theorem annotation_mode_iff_nonempty (self : Dataset) (layout : Layout) :
  ∃ fig store log,
    create_figure self layout = Some (fig, store, log)
    ∧ Forall2 (λ el tr,
                 trace_mode tr
                 = if annotation_nonempty el then Some "markers+text"
                   else mode (trace_params self))
              store (fig_traces fig).
Proof.
  destruct (create_figure_entries self layout)
    as (fig & st & log & Hfig & _ & Htr & _).
  exists fig, st, log. split; [done|].
  eapply Forall2_impl; [exact Htr|].
  by intros el tr (show & label & ->).
Qed.

(** C9: the name of a trace that is a legend entry is the label of its
    key (names sorted and joined, group prefix applied) if that has at
    most 60 characters, and else its first 60 characters followed by
    ["..."], 63 characters in all. *)
Theorem legend_label_cropped (self : Dataset) (layout : Layout) :
  ∃ fig store log,
    create_figure self layout = Some (fig, store, log)
    ∧ ∀ key el tr,
        (el, tr) ∈ legend_entries key store (fig_traces fig) →
        let label :=
          with_group (group el)
            (join_names (sorted (list_to_set (names_of_key key store)))) in
        (60 < String.length label →
           trace_name tr = substring 0 60 label +:+ "..."
           ∧ String.length (trace_name tr) = 63)
        ∧ (String.length label ≤ 60 → trace_name tr = label).
Proof.
  destruct (create_figure_entries self layout)
    as (fig & st & log & Hfig & _ & _ & Hent).
  exists fig, st, log. split; [done|].
  intros key el tr Hin label. rewrite Hent in Hin.
  destruct (representative key st) as [el'|]; [|by apply elem_of_nil in Hin].
  apply list_elem_of_singleton in Hin. injection Hin as -> ->.
  simpl. unfold legend_label. rewrite names_by_legend_key_lookup.
  apply crop_label_spec.
Qed.

(** C10: the names of a legend key are those of all the points with that
    key, hidden or not, so the name of every point is among the names
    that make the label of the entry of its key; and a key whose points
    all have [hide_in_legend = True] has no legend entry. *)
Theorem legend_names_include_hidden_points (self : Dataset) (layout : Layout) :
  ∃ fig store log,
    create_figure self layout = Some (fig, store, log)
    ∧ (∀ key,
         default ∅ (names_by_legend_key store !! key)
         = list_to_set (names_of_key key store))
    ∧ (∀ key el tr,
         (el, tr) ∈ legend_entries key store (fig_traces fig) →
         trace_name tr
         = crop_label
             (with_group (group el)
                (join_names (sorted (default ∅ (names_by_legend_key store !! key)))))
         ∧ ∀ other, other ∈ store → key_of other = key →
             name other ∈ sorted (default ∅ (names_by_legend_key store !! key)))
    ∧ (∀ key,
         (∀ el, el ∈ store → key_of el = key →
                bool_truthy (hide_in_legend el) = true) →
         legend_entries key store (fig_traces fig) = []).
Proof.
  destruct (create_figure_entries self layout)
    as (fig & st & log & Hfig & _ & _ & Hent).
  exists fig, st, log. split; [done|].
  split; [intros key; apply names_by_legend_key_lookup|]. split.
  - intros key el tr Hin. rewrite Hent in Hin.
    destruct (representative key st) as [el'|]; [|by apply elem_of_nil in Hin].
    apply list_elem_of_singleton in Hin. injection Hin as -> ->.
    split; [done|]. intros other Hother Hkey.
    apply sorted_spec. rewrite names_by_legend_key_lookup.
    apply elem_of_list_to_set. unfold names_of_key.
    apply list_elem_of_fmap_2, list_elem_of_filter. done.
  - intros key Hhidden. rewrite Hent.
    destruct (representative key st) as [el|] eqn:Hrep; [|done].
    apply representative_Some in Hrep as (Hel & Hk & Hv).
    specialize (Hhidden el Hel Hk). unfold visible in Hv.
    rewrite Hhidden in Hv. done.
Qed.

End Figure.

(* ================================================================== *)
(** * The claims on the example datasets *)
(* ================================================================== *)

(** C1 as stated fails on [crowded]: nine points carry a non-empty
    annotation before the selector runs, eleven after. *)
Lemma crowded_exceeds_cap :
  count_nonempty (points crowded) = 9
  ∧ (λ r : list Point * nat * list LogRecord,
       (count_nonempty r.1.1, r.1.2)) <$> @select_outliers numpy_float64 crowded
    = Some (11, 11)
  ∧ ¬ (11 ≤ MAX_ANNOTATIONS ∨ MAX_ANNOTATIONS < 9).
Proof.
  split; [by vm_compute|]. split; [by vm_compute|].
  unfold MAX_ANNOTATIONS. lia.
Qed.

(** C2 as stated fails on [crowded]: every threshold that the search
    tries leaves eleven points, nine annotated and two outliers, and the
    annotation step uses not the last threshold tried but that plus
    [0.2], which is above [6.0] and was not tried. *)
Lemma crowded_search_overshoots :
  ∃ t log u,
    threshold_loop LOOP_FUEL (count_annotated (points crowded))
      (@selector_z_scores numpy_float64 crowded).1
      (@selector_z_scores numpy_float64 crowded).2 1
    = Some (t, log)
    ∧ @select_outliers numpy_float64 crowded
      = Some (annotate_outliers t (candidates (points crowded))
                (@selector_z_scores numpy_float64 crowded).1
                (@selector_z_scores numpy_float64 crowded).2
                (points crowded), 11, log)
    ∧ count_annotated (points crowded) = 9
    ∧ forallb (λ c, bool_decide (c = 2)) (logged_outliers log) = true
    ∧ last (logged_thresholds log) = Some u
    ∧ t = PrimFloat.add u 0.2
    ∧ PrimFloat.leb u 6 = true
    ∧ PrimFloat.leb t 6 = false
    ∧ existsb (λ v, PrimFloat.eqb v t) (logged_thresholds log) = false.
Proof.
  exists threshold_exhausted, ((λ u, Debug_threshold u 2) <$> thresholds_tried),
    5.8000000000000025%float.
  repeat split; by vm_compute.
Qed.

(** C3 as stated fails on [relabelled]: the annotation that the caller
    set is replaced by the name of the point. *)
Lemma relabelled_annotation_overwritten :
  annotation <$> points relabelled = [Some "my label"]
  ∧ (λ r : list Point * nat * list LogRecord, annotation <$> r.1.1) <$> @select_outliers numpy_float64 relabelled
    = Some [Some "s1"].
Proof. split; by vm_compute. Qed.

(** C4 as stated fails on [all_hidden]: the key of its point has no
    legend entry. *)
Lemma hidden_key_without_entry :
  (λ r : Figure * list Point * list LogRecord,
     (key_of <$> r.1.2,
         legend_entries plain_key r.1.2 (fig_traces r.1.1),
         showlegend <$> fig_traces r.1.1))
    <$> @create_figure numpy_float64 all_hidden a_layout
  = Some ([plain_key], [], [false]).
Proof. by vm_compute. Qed.

(** C5 as stated fails on [saturated]: its only candidate is not
    annotated, because ten points are annotated already. *)
Lemma saturated_candidate_skipped :
  (λ ip : nat * Point, (ip.1, name ip.2)) <$> candidates (points saturated) = [(10, "only")]
  ∧ @select_outliers numpy_float64 saturated = Some (points saturated, 10, [])
  ∧ annotation <$> points saturated !! 10 = Some None.
Proof. repeat split; by vm_compute. Qed.

(** C7 as stated fails on [blank_label]: the point carries an annotation,
    the empty text, and its trace is not in annotation mode. *)
Lemma blank_annotation_not_in_text_mode :
  (λ r : Figure * list Point * list LogRecord,
     (annotation <$> r.1.2, trace_mode <$> fig_traces r.1.1))
    <$> @create_figure numpy_float64 blank_label a_layout
  = Some ([Some ""], [Some "markers"]).
Proof. by vm_compute. Qed.

(** C8 as stated fails on [no_points]: the standard deviation of the
    empty array is not zero but [nan], the zero-spread branch is not
    taken, and the search runs once. *)
Lemma empty_std_is_not_zero :
  PrimFloat.eqb (@np_std numpy_float64 []) 0 = false
  ∧ PrimFloat.is_nan (@np_std numpy_float64 []) = true
  ∧ @zero_spread numpy_float64 no_points = false
  ∧ @select_outliers numpy_float64 no_points
    = Some ([], 0, [Debug_threshold 1 0]).
Proof. repeat split; by vm_compute. Qed.

(** C2 on [mixed]: the search stops at [1.0], where one point is an
    outlier. *)
Lemma threshold_search_steps_mixed :
  LOOP_FUEL ≤ LOOP_FUEL
  ∧ count_annotated (points mixed) < MAX_ANNOTATIONS
  ∧ @zero_spread numpy_float64 mixed = false
  ∧ ∃ t log,
      threshold_loop LOOP_FUEL (count_annotated (points mixed))
        (@selector_z_scores numpy_float64 mixed).1
        (@selector_z_scores numpy_float64 mixed).2 1
      = Some (t, log)
      ∧ logged_thresholds log = [t].
Proof.
  assert (count_annotated (points mixed) < MAX_ANNOTATIONS) as Hn
    by (vm_compute; lia).
  assert (@zero_spread numpy_float64 mixed = false) as Hz by (by vm_compute).
  split; [done|]. split; [exact Hn|]. split; [exact Hz|].
  destruct (threshold_search_steps (H:=numpy_float64) mixed LOOP_FUEL
              (le_n _) Hn Hz) as (t & log & Hloop & _ & _ & _ & Hcases).
  exists t, log. split; [exact Hloop|].
  vm_compute in Hloop. injection Hloop as <- <-. by vm_compute.
Defined.

(** C5 on [lone]. *)
Lemma single_candidate_annotated_lone :
  ∃ st log,
    @select_outliers numpy_float64 lone = Some (st, count_annotated st, log)
    ∧ annotation <$> st = [Some "only"].
Proof.
  destruct (single_candidate_annotated (H:=numpy_float64) lone 0
              (plain_point 3 4 "only"))
    as (st & log & Hsel & -> & _); try by vm_compute.
  - vm_compute. lia.
  - by eexists _, _.
Defined.

(** C8 on [only_excluded]. *)
Lemma idle_on_excluded_only :
  ∃ log,
    @select_outliers numpy_float64 only_excluded
    = Some (points only_excluded, 0, log)
    ∧ log = [Debug_threshold 1 0].
Proof.
  destruct (proj2 (selector_total_and_idle_without_candidates
                     (H:=numpy_float64) only_excluded) eq_refl)
    as (log & Hsel & Hlog).
  exists log. split; [exact Hsel|]. rewrite Hlog. by vm_compute.
Defined.

(** C4 on [two_keys]: one entry for the red key. *)
Lemma legend_one_entry_red :
  ∃ fig store log,
    @create_figure numpy_float64 two_keys a_layout = Some (fig, store, log)
    ∧ length (legend_entries red_key store (fig_traces fig)) = 1.
Proof.
  destruct (legend_one_entry_per_visible_key (H:=numpy_float64)
              two_keys a_layout) as (fig & store & log & Hfig & _ & _ & Hkeys).
  exists fig, store, log. split; [exact Hfig|].
  specialize (Hkeys red_key).
  vm_compute in Hfig. injection Hfig as <- <- <-.
  destruct (representative red_key _) as [el|] eqn:Hrep; [|by vm_compute in Hrep].
  destruct Hkeys as (tr & names & -> & _). done.
Defined.

(** C9 on [long_names]: the label of 78 characters is cropped. *)
Lemma legend_label_cropped_long :
  ∃ fig store log,
    @create_figure numpy_float64 long_names a_layout = Some (fig, store, log)
    ∧ trace_name <$> head (fig_traces fig)
      = Some "sample_alpha_replicate_01, sample_beta_replicate_02, sample_...".
Proof.
  destruct (legend_label_cropped (H:=numpy_float64) long_names a_layout)
    as (fig & store & log & Hfig & Hcrop).
  exists fig, store, log. split; [exact Hfig|].
  vm_compute in Hfig. injection Hfig as <- <- <-.
  cbn [fig_traces].
  match goal with
  | |- trace_name <$> head (?tr :: _) = _ =>
      destruct (Hcrop plain_key
                  (annotate_with_name
                     (plain_point 1 1 "sample_gamma_replicate_03")) tr)
        as [Hlong _]
  end.
  - vm_compute. left.
  - destruct Hlong as [Hname _]; [vm_compute; lia|].
    cbn [head fmap option_fmap option_map]. rewrite Hname. by vm_compute.
Defined.

(** C10 on [half_hidden]: the label of the shown point contains the name
    of the hidden one, which is no legend entry itself. *)
Lemma hidden_name_in_shown_label :
  ∃ fig store log,
    @create_figure numpy_float64 half_hidden a_layout = Some (fig, store, log)
    ∧ (bool_truthy ∘ hide_in_legend) <$> store = [true; false]
    ∧ name <$> store = ["ghost"; "shown"]
    ∧ showlegend <$> fig_traces fig = [false; true]
    ∧ trace_name <$> fig_traces fig = ["ghost"; "ghost, shown"]
    ∧ "ghost" ∈ sorted (default ∅ (names_by_legend_key store !! plain_key)).
Proof.
  destruct (legend_names_include_hidden_points (H:=numpy_float64)
              half_hidden a_layout)
    as (fig & store & log & Hfig & _ & Hlabel & _).
  exists fig, store, log. split; [exact Hfig|].
  vm_compute in Hfig. injection Hfig as <- <- <-.
  repeat (split; [by vm_compute|]).
  match type of Hlabel with
  | context [fig_traces (mkFigure _ [_; ?tr])] =>
      eapply (proj2 (Hlabel plain_key (plain_point 2 1 "shown") tr _)
                (with_hide_in_legend true (plain_point 1 2 "ghost")))
  end.
  - left.
  - done.
  Unshelve. vm_compute. left.
Defined.

(* ================================================================== *)
(** * The scenarios of the specification *)
(* ================================================================== *)

(** Three coincident points: the warning, and no annotation. *)
Example coincident_points_not_annotated :
  @select_outliers numpy_float64 coincident
  = Some (points coincident, 0, [Warning_same_coordinates "coincident" 3]).
Proof. by vm_compute. Qed.

(** A cluster and one far point: the search stops at its first
    threshold, and the far point alone is annotated. *)
Example far_point_alone_annotated :
  (λ r : list Point * nat * list LogRecord,
     (omap annotation r.1.1, r.1.2, r.2))
    <$> @select_outliers numpy_float64 cluster_and_far
  = Some (["far"], 1, [Debug_threshold 1 1]).
Proof. by vm_compute. Qed.

(** Two legend keys: the entries ["A, B, C"] and ["Grp: D, E"]. *)
Example two_keys_legend :
  (λ r : Figure * list Point * list LogRecord,
     (λ tr, (showlegend tr, trace_name tr)) <$> fig_traces r.1.1)
    <$> @create_figure numpy_float64 two_keys a_layout
  = Some [ (true, "A, B, C"); (false, "A"); (false, "B");
           (true, "Grp: D, E"); (false, "D") ].
Proof. by vm_compute. Qed.

(* ================================================================== *)
(** * Further properties of the selector and of the figure *)
(* ================================================================== *)

(* ================================================================== *)
(** * The order of floats *)
(* ================================================================== *)

Lemma lex_compare_Lt (ea eb : Z) (ma mb : positive) :
  match (ea ?= eb)%Z with
  | Lt => Lt | Gt => Gt | Eq => Pos.compare_cont Eq ma mb
  end = Lt
  ↔ (ea < eb)%Z ∨ (ea = eb ∧ (ma < mb)%positive).
Proof.
  change (Pos.compare_cont Eq) with Pos.compare.
  destruct (Z.compare_spec ea eb) as [Heq|Hlt|Hgt].
  - rewrite Pos.compare_lt_iff. split; [by right|]. intros [?|[_ ?]]; [lia|done].
  - split; [by left|done].
  - split; [done|]. intros [?|[? _]]; lia.
Qed.

Lemma lex_compare_opp_Lt (ea eb : Z) (ma mb : positive) :
  match (ea ?= eb)%Z with
  | Lt => Gt | Gt => Lt | Eq => CompOpp (Pos.compare_cont Eq ma mb)
  end = Lt
  ↔ (eb < ea)%Z ∨ (ea = eb ∧ (mb < ma)%positive).
Proof.
  change (Pos.compare_cont Eq) with Pos.compare.
  destruct (Z.compare_spec ea eb) as [Heq|Hlt|Hgt].
  - rewrite <- Pos.compare_antisym, Pos.compare_lt_iff.
    split; [by right|]. intros [?|[_ ?]]; [lia|done].
  - split; [done|]. intros [?|[? _]]; lia.
  - split; [by left|done].
Qed.

Lemma SFltb_trans a b c :
  SFltb a b = true → SFltb b c = true → SFltb a c = true.
Proof.
  assert (∀ o : comparison,
            match Some o with Some Lt => true | _ => false end = true
            ↔ o = Lt) as Hlt by (intros []; naive_solver).
  unfold SFltb.
  destruct a as [sa|sa| |sa ma ea], b as [sb|sb| |sb mb eb],
    c as [sc|sc| |sc mc ec];
    try (destruct sa); try (destruct sb); try (destruct sc);
    cbn [SFcompare]; try done.
  - rewrite !Hlt, !lex_compare_opp_Lt. lia.
  - rewrite !Hlt, !lex_compare_Lt. lia.
Qed.

(** [a < b] and [b < c] give [a < c], also with infinities and [nan]. *)
Lemma float_ltb_trans (a b c : float) :
  PrimFloat.ltb a b = true → PrimFloat.ltb b c = true →
  PrimFloat.ltb a c = true.
Proof. rewrite !ltb_spec. apply SFltb_trans. Qed.

Lemma is_outlier_mono t t' a b :
  t' = t ∨ PrimFloat.ltb t t' = true →
  is_outlier t' a b = true → is_outlier t a b = true.
Proof.
  intros [->|Hlt]; [done|]. unfold is_outlier.
  rewrite !orb_true_iff. intros [Ha|Hb]; [left|right];
    by eapply float_ltb_trans.
Qed.

Lemma outlier_mask_cons t a xz b yz :
  outlier_mask t (a :: xz) (b :: yz)
  = is_outlier t a b :: outlier_mask t xz yz.
Proof. done. Qed.

Lemma count_nonzero_outlier_mask_mono t t' xz : ∀ yz,
  t' = t ∨ PrimFloat.ltb t t' = true →
  count_nonzero (outlier_mask t' xz yz) ≤ count_nonzero (outlier_mask t xz yz).
Proof.
  intros yz Ht. revert yz.
  induction xz as [|a xz IH]; intros [|b yz]; try (cbn; lia).
  rewrite !outlier_mask_cons. cbn [count_nonzero]. specialize (IH yz).
  destruct (is_outlier t' a b) eqn:E'.
  - rewrite (is_outlier_mono t t' a b Ht E'). lia.
  - destruct (is_outlier t a b); lia.
Qed.

(** The thresholds that [threshold] runs through increase. *)
Lemma thresholds_increase :
  StronglySorted (λ u v, PrimFloat.ltb u v = true)
    (thresholds_tried ++ [threshold_exhausted]).
Proof.
  unfold thresholds_tried, threshold_exhausted. cbn [app].
  repeat (constructor; try reflexivity).
Qed.

(* ================================================================== *)
(** * The annotation steps as assignments at a list of indices *)
(* ================================================================== *)

Lemma annotate_outliers_annotate_at t cands : ∀ xz yz st,
  annotate_outliers t cands xz yz st
  = annotate_at (outlier_indices t cands xz yz) st.
Proof.
  unfold annotate_outliers, annotate_at, outlier_indices.
  induction cands as [|ip cands IH]; intros xz yz st; [done|].
  destruct xz as [|a xz]; [done|]. destruct yz as [|b yz]; [done|].
  cbn. destruct (is_outlier t a b); cbn; apply IH.
Qed.

Lemma annotate_all_annotate_at cands : ∀ st,
  annotate_all cands st = annotate_at cands.*1 st.
Proof.
  unfold annotate_all, annotate_at.
  induction cands as [|ip cands IH]; intros st; [done|]. cbn. apply IH.
Qed.

Lemma annotate_at_lookup idxs : ∀ st j,
  annotate_at idxs st !! j
  = if decide (j ∈ idxs) then annotate_with_name <$> st !! j else st !! j.
Proof.
  unfold annotate_at.
  induction idxs as [|i idxs IH]; intros st j; cbn.
  - rewrite decide_False; [done|]. apply not_elem_of_nil.
  - rewrite IH, list_lookup_alter.
    destruct (decide (i = j)) as [->|Hne].
    + rewrite (decide_True (P := j ∈ j :: idxs)) by left.
      case_decide; [|done]. by destruct (st !! j).
    + destruct (decide (j ∈ idxs)) as [Hin|Hin].
      * rewrite decide_True; [done|]. by right.
      * rewrite decide_False; [done|].
        intros [?|?]%elem_of_cons; [by subst|done].
Qed.

Lemma annotate_at_idemp idxs idxs' st :
  idxs' ⊆ idxs →
  annotate_at idxs' (annotate_at idxs st) = annotate_at idxs st.
Proof.
  intros Hsub. apply list_eq. intros j. rewrite !annotate_at_lookup.
  destruct (decide (j ∈ idxs')) as [Hin|Hin]; [|done].
  rewrite decide_True by (by apply Hsub). by destruct (st !! j).
Qed.

Lemma elem_of_outlier_indices t cands xz yz j :
  j ∈ outlier_indices t cands xz yz
  ↔ ∃ k el a b, cands !! k = Some (j, el) ∧ xz !! k = Some a
               ∧ yz !! k = Some b ∧ is_outlier t a b = true.
Proof.
  unfold outlier_indices. rewrite list_elem_of_omap. split.
  - intros (z & Hin & Hsel).
    apply elem_of_lookup_zip_with in Hin
      as (k & [[i el] a] & b & -> & Hz & Hb).
    apply lookup_zip_with_Some in Hz as (ip' & a' & Heq & Hc & Ha).
    injection Heq as <- <-. cbn in Hsel.
    destruct (is_outlier t a b) eqn:Ho; [|done]. injection Hsel as <-.
    by exists k, el, a, b.
  - intros (k & el & a & b & Hc & Ha & Hb & Ho).
    exists ((j, el), a, b). split; [|by rewrite Ho].
    apply list_elem_of_lookup. exists k.
    rewrite !lookup_zip_with, Hc. cbn. rewrite Ha. cbn. by rewrite Hb.
Qed.

Lemma outlier_indices_mono t t' cands xz yz :
  t' = t ∨ PrimFloat.ltb t t' = true →
  outlier_indices t' cands xz yz ⊆ outlier_indices t cands xz yz.
Proof.
  intros Ht j. rewrite !elem_of_outlier_indices.
  intros (k & el & a & b & Hc & Ha & Hb & Ho).
  exists k, el, a, b. eauto using is_outlier_mono.
Qed.

Lemma outlier_indices_fst t cands : ∀ cands' xz yz,
  cands.*1 = cands'.*1 →
  outlier_indices t cands xz yz = outlier_indices t cands' xz yz.
Proof.
  unfold outlier_indices.
  induction cands as [|[i p] cands IH]; intros [|[i' p'] cands'] xz yz Heq;
    try done.
  injection Heq as -> Heq.
  destruct xz as [|a xz]; [done|]. destruct yz as [|b yz]; [done|].
  cbn. by rewrite (IH cands' xz yz Heq).
Qed.

(** The candidates have distinct indices. *)
Lemma candidates_NoDup l : NoDup (candidates l).*1.
Proof.
  unfold candidates.
  eapply sublist_NoDup; [|apply fmap_sublist, sublist_filter].
  apply NoDup_alt. intros i j k.
  rewrite !list_lookup_fmap, !list_lookup_imap.
  destruct (l !! i), (l !! j); naive_solver.
Qed.

Lemma length_z_scores `{NumPy} values std :
  length (z_scores values std) = length values.
Proof. unfold z_scores. destruct (negb _); by rewrite length_fmap. Qed.

(* ================================================================== *)
(** * The points that the selector renames *)
(* ================================================================== *)

(** After the loop of lines 108-111, the candidate at position [k] is
    renamed if its Z-scores exceed the threshold, and is as it was
    otherwise. *)
Lemma annotate_outliers_lookup t pts k i el a b xz yz :
  candidates pts !! k = Some (i, el) →
  xz !! k = Some a → yz !! k = Some b →
  annotate_outliers t (candidates pts) xz yz pts !! i
  = Some (if is_outlier t a b then annotate_with_name el else el).
Proof.
  intros Hk Ha Hb.
  rewrite annotate_outliers_annotate_at, annotate_at_lookup.
  assert (pts !! i = Some el) as ->.
  { by apply (candidates_sound _ (i, el)), list_elem_of_lookup_2 with k. }
  destruct (is_outlier t a b) eqn:Ho.
  - rewrite decide_True; [done|].
    apply elem_of_outlier_indices. by exists k, el, a, b.
  - rewrite decide_False; [done|].
    intros (k' & el' & a' & b' & Hk' & Ha' & Hb' & Ho')%elem_of_outlier_indices.
    assert (k' = k) as ->.
    { eapply NoDup_lookup; [apply (candidates_NoDup pts)| |];
        rewrite list_lookup_fmap; [by rewrite Hk'|by rewrite Hk]. }
    congruence.
Qed.

Section Renamed.
Context `{NumPy}.

Lemma length_selector_z_scores self :
  length (selector_z_scores self).1 = length (candidates (points self))
  ∧ length (selector_z_scores self).2 = length (candidates (points self)).
Proof.
  unfold selector_z_scores. cbn [fst snd].
  by rewrite !length_z_scores, !length_fmap.
Qed.

(** C3 (as amended): the selector never removes an annotation.  It leaves
    a point as it is, or, for a candidate that it selects, sets the
    annotation to the name of the point, whether or not the point carried
    an annotation: the text of an annotation that was there before is kept
    for the points with [annotate = False] and for the candidates that
    are not selected, and replaced by the name for the selected ones.
    The selected candidates are: none when [MAX_ANNOTATIONS] points
    carry an annotation already; with zero spread, the candidate if there
    is a single one, and else none; otherwise, those whose x or y Z-score
    exceeds the threshold that the search ends with. *)
Theorem annotations_kept_or_renamed (self : Dataset) :
  ∃ st log,
    select_outliers self = Some (st, count_annotated st, log)
    ∧ Forall2 selector_effect (points self) st
    ∧ Forall2 (λ before after,
                 ∀ text, annotation before = Some text →
                   annotation after = Some text
                   ∨ (is_candidate before = true
                      ∧ annotation after = Some (name before)))
              (points self) st
    ∧ Forall2 (λ before after, is_candidate before = false → after = before)
              (points self) st
    ∧ (if bool_decide (count_annotated (points self) < MAX_ANNOTATIONS) then
         if zero_spread self then
           match candidates (points self) with
           | [(i, el)] =>
               st = alter annotate_with_name i (points self)
               ∧ st !! i = Some (annotate_with_name el)
               ∧ annotation (annotate_with_name el) = Some (name el)
           | _ => st = points self
           end
         else
           ∃ t,
             threshold_loop LOOP_FUEL (count_annotated (points self))
               (selector_z_scores self).1 (selector_z_scores self).2 1
             = Some (t, log)
             ∧ length (selector_z_scores self).1
               = length (candidates (points self))
             ∧ length (selector_z_scores self).2
               = length (candidates (points self))
             ∧ ∀ k i el a b,
                 candidates (points self) !! k = Some (i, el) →
                 (selector_z_scores self).1 !! k = Some a →
                 (selector_z_scores self).2 !! k = Some b →
                 points self !! i = Some el
                 ∧ st !! i = Some (if is_outlier t a b
                                   then annotate_with_name el else el)
       else st = points self).
Proof.
  destruct (select_outliers_total self) as (st & log & Hsel & _).
  exists st, log. split; [done|].
  pose proof (select_outliers_effect _ _ _ _ Hsel) as Heff.
  split; [done|]. split.
  { eapply Forall2_impl; [exact Heff|].
    intros p q [->|[Hc ->]] text Hp; [by left|by right]. }
  split; [by eapply select_outliers_excluded|].
  unfold select_outliers in Hsel.
  rewrite select_outliers_fuel_cases in Hsel by done. cbv zeta in Hsel.
  case_bool_decide as Hn; [|by injection Hsel as <- _].
  destruct (zero_spread self).
  - injection Hsel as <- _ _.
    destruct (candidates (points self)) as [|[i el] [|ip cands]] eqn:Hcands;
      try done.
    cbn. rewrite bool_decide_eq_true_2 by done.
    split; [done|]. split; [|done].
    rewrite list_lookup_alter_eq.
    assert (points self !! i = Some el) as ->; [|done].
    apply (candidates_sound _ (i, el)). rewrite Hcands. left.
  - pose proof (threshold_loop_enough_fuel LOOP_FUEL
                  (count_annotated (points self)) (selector_z_scores self).1
                  (selector_z_scores self).2 (le_n _)) as Hloop.
    destruct (scan_thresholds _ _ _ _ _) as [t log'].
    cbn [fst snd] in Hsel. injection Hsel as <- _ <-.
    exists t. split; [done|].
    destruct (length_selector_z_scores self) as [Hx Hy].
    split; [done|]. split; [done|].
    intros k i el a b Hk Ha Hb. split.
    + by apply (candidates_sound _ (i, el)), list_elem_of_lookup_2 with k.
    + by apply annotate_outliers_lookup with k.
Qed.

End Renamed.

(* ================================================================== *)
(** * The selector on the points that it has left *)
(* ================================================================== *)

Lemma candidates_same_from l : ∀ l' (g : nat → nat),
  Forall2 (λ p q, is_candidate q = is_candidate p ∧ x q = x p ∧ y q = y p)
          l l' →
  Forall2 (λ c c' : nat * Point, c'.1 = c.1 ∧ x c'.2 = x c.2 ∧ y c'.2 = y c.2)
    (filter (λ ip : nat * Point, is_candidate ip.2 = true)
            (imap (λ i, pair (g i)) l))
    (filter (λ ip : nat * Point, is_candidate ip.2 = true)
            (imap (λ i, pair (g i)) l')).
Proof.
  induction l as [|p l IH]; intros [|q l'] g HF; inv HF; [constructor|].
  destruct H2 as (Hc & Hx & Hy).
  rewrite !imap_cons, !filter_cons. cbn. rewrite Hc.
  specialize (IH l' (g ∘ S) H4). unfold compose in IH.
  case_decide; [constructor; [done|]|]; apply IH.
Qed.

Lemma candidates_same l l' :
  Forall2 (λ p q, is_candidate q = is_candidate p ∧ x q = x p ∧ y q = y p)
          l l' →
  (candidates l').*1 = (candidates l).*1
  ∧ (λ ip : nat * Point, x ip.2) <$> candidates l'
    = (λ ip : nat * Point, x ip.2) <$> candidates l
  ∧ (λ ip : nat * Point, y ip.2) <$> candidates l'
    = (λ ip : nat * Point, y ip.2) <$> candidates l.
Proof.
  intros HF. pose proof (candidates_same_from l l' id HF) as Hc.
  change (Forall2 (λ c c' : nat * Point,
                     c'.1 = c.1 ∧ x c'.2 = x c.2 ∧ y c'.2 = y c.2)
            (candidates l) (candidates l')) in Hc.
  induction Hc as [|c c' k k' (H1 & H2 & H3) _ (IH1 & IH2 & IH3)]; [done|].
  cbn. by rewrite H1, H2, H3, IH1, IH2, IH3.
Qed.

Lemma selector_effect_coordinates before after :
  selector_effect before after →
  is_candidate after = is_candidate before ∧ x after = x before
  ∧ y after = y before.
Proof. by intros [->|[_ ->]]. Qed.

Lemma count_annotated_mono l l' :
  Forall2 (λ p q, has_annotation p = true → has_annotation q = true) l l' →
  count_annotated l ≤ count_annotated l'.
Proof.
  induction 1 as [|p q l l' Hpq _ IH]; [done|].
  rewrite !count_annotated_cons.
  destruct (has_annotation p); [rewrite Hpq by done|destruct (has_annotation q)];
    lia.
Qed.

Lemma scan_thresholds_cons t ths final n xz yz :
  scan_thresholds (t :: ths) final n xz yz
  = if bool_decide (n + count_nonzero (outlier_mask t xz yz) ≤ MAX_ANNOTATIONS)
    then (t, [Debug_threshold t (count_nonzero (outlier_mask t xz yz))])
    else ((scan_thresholds ths final n xz yz).1,
          Debug_threshold t (count_nonzero (outlier_mask t xz yz))
          :: (scan_thresholds ths final n xz yz).2).
Proof.
  unfold scan_thresholds at 1. fold scan_thresholds.
  case_bool_decide; [done|]. by destruct (scan_thresholds _ _ _ _ _).
Qed.

Lemma scan_thresholds_elem ths : ∀ final n xz yz,
  (scan_thresholds ths final n xz yz).1 ∈ ths ++ [final].
Proof.
  induction ths as [|t ths IH]; intros final n xz yz.
  - left.
  - rewrite scan_thresholds_cons. case_bool_decide; [left|].
    right. apply IH.
Qed.

(** With more points annotated already, the search does not stop at a
    lower threshold. *)
Lemma scan_thresholds_mono ths : ∀ final n n' xz yz,
  StronglySorted (λ u v, PrimFloat.ltb u v = true) (ths ++ [final]) →
  n ≤ n' →
  (scan_thresholds ths final n' xz yz).1 = (scan_thresholds ths final n xz yz).1
  ∨ PrimFloat.ltb (scan_thresholds ths final n xz yz).1
                  (scan_thresholds ths final n' xz yz).1 = true.
Proof.
  induction ths as [|t ths IH]; intros final n n' xz yz Hs Hn; [by left|].
  cbn in Hs. apply StronglySorted_inv in Hs as [Hs Ht].
  specialize (IH final n n' xz yz Hs Hn).
  pose proof (scan_thresholds_elem ths final n' xz yz) as Hel.
  rewrite !scan_thresholds_cons. repeat case_bool_decide; try lia.
  - by left.
  - right. cbn. by eapply Forall_forall in Ht.
  - done.
Qed.

Lemma logged_outliers_fmap (f : float → nat) (ths : list float) :
  logged_outliers ((λ t, Debug_threshold t (f t)) <$> ths) = f <$> ths.
Proof.
  unfold logged_outliers.
  induction ths as [|t ths IH]; [done|]. cbn. by f_equal.
Qed.

Lemma StronglySorted_take {A} (R : relation A) (l : list A) k :
  StronglySorted R l → StronglySorted R (take k l).
Proof.
  intros Hs. rewrite <- (take_drop k l) in Hs.
  by apply StronglySorted_app_1_l in Hs.
Qed.

Lemma thresholds_tried_increase :
  StronglySorted (λ u v, PrimFloat.ltb u v = true) thresholds_tried.
Proof. eapply StronglySorted_app_1_l, thresholds_increase. Qed.

Section SelectorMore.
Context `{NumPy}.

Lemma selector_z_scores_same self st :
  Forall2 selector_effect (points self) st →
  selector_z_scores (with_points self st) = selector_z_scores self
  ∧ zero_spread (with_points self st) = zero_spread self
  ∧ (candidates st).*1 = (candidates (points self)).*1.
Proof.
  intros Heff.
  destruct (candidates_same (points self) st) as (Hidx & Hx & Hy).
  { eapply Forall2_impl; [exact Heff|apply selector_effect_coordinates]. }
  unfold selector_z_scores, zero_spread. cbn [points with_points].
  by rewrite Hx, Hy.
Qed.

(** The selector changes nothing on the points that it has left. *)
Lemma select_outliers_again self st n log :
  select_outliers self = Some (st, n, log) →
  ∃ log',
    select_outliers (with_points self st)
    = Some (st, count_annotated st, log').
Proof.
  intros Hsel.
  pose proof (select_outliers_effect _ _ _ _ Hsel) as Heff.
  destruct (selector_z_scores_same self st Heff) as (Hzs & Hzero & Hidx).
  assert (count_annotated (points self) ≤ count_annotated st) as Hcount.
  { apply count_annotated_mono. eapply Forall2_impl; [exact Heff|].
    by intros p q [->|[_ ->]]. }
  assert (length (candidates st) = length (candidates (points self))) as Hlen.
  { by rewrite <- (length_fmap fst), Hidx, length_fmap. }
  unfold select_outliers in *.
  rewrite select_outliers_fuel_cases in Hsel |- * by done.
  cbv zeta in Hsel |- *. rewrite Hzs, Hzero. cbn [points plot_id with_points].
  rewrite Hlen.
  destruct (decide (count_annotated st < MAX_ANNOTATIONS)) as [Hn'|Hn'];
    [|rewrite (bool_decide_eq_false_2 _ Hn'); by eexists].
  rewrite (bool_decide_eq_true_2 _ Hn').
  rewrite bool_decide_eq_true_2 in Hsel by lia.
  destruct (zero_spread self).
  - destruct (decide (length (candidates (points self)) = 1)) as [Hone|Hone].
    + rewrite (bool_decide_eq_true_2 _ Hone) in Hsel |- *.
      injection Hsel as Hst _ _.
      assert (annotate_all (candidates st) st = st) as Hfix.
      { rewrite annotate_all_annotate_at, Hidx. rewrite <- Hst at 1 2.
        rewrite annotate_all_annotate_at. by apply annotate_at_idemp. }
      eexists. by rewrite Hfix.
    + rewrite (bool_decide_eq_false_2 _ Hone) in Hsel |- *. by eexists.
  - injection Hsel as Hst _ _.
    set (zs := selector_z_scores self) in *.
    assert (annotate_outliers
              (scan_thresholds thresholds_tried threshold_exhausted
                 (count_annotated st) zs.1 zs.2).1
              (candidates st) zs.1 zs.2 st = st) as Hfix.
    { pose proof (scan_thresholds_mono thresholds_tried threshold_exhausted
                    (count_annotated (points self)) (count_annotated st)
                    zs.1 zs.2 thresholds_increase Hcount) as Hmono.
      revert Hmono.
      generalize (scan_thresholds thresholds_tried threshold_exhausted
                    (count_annotated st) zs.1 zs.2).1.
      intros t' Hmono.
      rewrite annotate_outliers_annotate_at.
      rewrite (outlier_indices_fst _ _ (candidates (points self))) by done.
      rewrite <- Hst at 1 2. rewrite annotate_outliers_annotate_at.
      by apply annotate_at_idemp, outlier_indices_mono. }
    eexists. by rewrite Hfix.
Qed.

End SelectorMore.

Section SelectorExtras.
Context `{NumPy}.

(** X1: when the search runs, the selector annotates a candidate with its
    name if its x or y Z-score exceeds the threshold that the search
    ends with, and leaves it as it is otherwise. *)
Theorem outliers_annotated_exactly (self : Dataset) (k i : nat) (el : Point)
    (a b : float) :
  count_annotated (points self) < MAX_ANNOTATIONS →
  zero_spread self = false →
  candidates (points self) !! k = Some (i, el) →
  (selector_z_scores self).1 !! k = Some a →
  (selector_z_scores self).2 !! k = Some b →
  ∃ st log t,
    select_outliers self = Some (st, count_annotated st, log)
    ∧ threshold_loop LOOP_FUEL (count_annotated (points self))
        (selector_z_scores self).1 (selector_z_scores self).2 1
      = Some (t, log)
    ∧ st !! i = Some (if is_outlier t a b then annotate_with_name el else el).
Proof.
  intros Hn Hz Hk Ha Hb.
  unfold select_outliers. rewrite select_outliers_fuel_cases by done.
  cbv zeta. rewrite bool_decide_eq_true_2, Hz by done.
  rewrite threshold_loop_enough_fuel by done.
  destruct (scan_thresholds _ _ _ _ _) as [t log]. cbn [fst snd].
  eexists _, log, t. split; [done|]. split; [done|].
  rewrite annotate_outliers_annotate_at, annotate_at_lookup.
  assert (points self !! i = Some el) as ->.
  { by apply (candidates_sound _ (i, el)), list_elem_of_lookup_2 with k. }
  destruct (is_outlier t a b) eqn:Ho.
  - rewrite decide_True; [done|].
    apply elem_of_outlier_indices. by exists k, el, a, b.
  - rewrite decide_False; [done|].
    intros (k' & el' & a' & b' & Hk' & Ha' & Hb' & Ho')%elem_of_outlier_indices.
    assert (k' = k) as ->.
    { eapply NoDup_lookup; [apply (candidates_NoDup (points self))| |];
        rewrite list_lookup_fmap; [by rewrite Hk'|by rewrite Hk]. }
    congruence.
Qed.

(** X2: the numbers of outliers that the search logs never increase from
    one threshold to the next. *)
Theorem logged_outlier_counts_decrease (self : Dataset) :
  ∃ st log,
    select_outliers self = Some (st, count_annotated st, log)
    ∧ StronglySorted (λ c c', c' ≤ c) (logged_outliers log).
Proof.
  unfold select_outliers. rewrite select_outliers_fuel_cases by done.
  cbv zeta. case_bool_decide; [|eexists _, _; split; [done|constructor]].
  destruct (zero_spread self); [eexists _, _; split; [done|constructor]|].
  eexists _, _. split; [done|].
  destruct (scan_thresholds_log thresholds_tried threshold_exhausted
              (count_annotated (points self)) (selector_z_scores self).1
              (selector_z_scores self).2) as (k & _ & ->).
  rewrite (logged_outliers_fmap
             (λ t, count_nonzero (outlier_mask t (selector_z_scores self).1
                                    (selector_z_scores self).2))).
  eapply StronglySorted_fmap;
    [|apply StronglySorted_take, thresholds_tried_increase].
  intros u v Huv. apply count_nonzero_outlier_mask_mono. by right.
Qed.

End SelectorExtras.

(** X3: with more points annotated already, the search ends at the same
    or at a higher threshold, and flags no more outliers there. *)
Theorem more_annotated_higher_threshold (n n' : nat) (xz yz : list float) :
  n ≤ n' →
  ∃ t log t' log',
    threshold_loop LOOP_FUEL n xz yz 1 = Some (t, log)
    ∧ threshold_loop LOOP_FUEL n' xz yz 1 = Some (t', log')
    ∧ (t' = t ∨ PrimFloat.ltb t t' = true)
    ∧ count_nonzero (outlier_mask t' xz yz)
      ≤ count_nonzero (outlier_mask t xz yz)
    ∧ ∀ cands, outlier_indices t' cands xz yz ⊆ outlier_indices t cands xz yz.
Proof.
  intros Hn. rewrite !threshold_loop_enough_fuel by done.
  pose proof (scan_thresholds_mono thresholds_tried threshold_exhausted
                n n' xz yz thresholds_increase Hn) as Hmono.
  destruct (scan_thresholds _ _ n _ _) as [t log],
           (scan_thresholds _ _ n' _ _) as [t' log']. cbn in Hmono.
  exists t, log, t', log'. split; [done|]. split; [done|]. split; [done|].
  split; [by apply count_nonzero_outlier_mask_mono|].
  intros cands. by apply outlier_indices_mono.
Qed.

Section FigureAgain.
Context `{NumPy}.

(** X4: a second call of [create_figure], on the points as the first
    call left them and with the layout object as the first call left
    it, changes no point and gives the same traces and the same height.
    The figure of the first call has the [showlegend] that the caller
    passed; that of the second call has [True], which the first call set
    on the layout object. *)
Theorem create_figure_again (self : Dataset) (layout : Layout) :
  ∃ fig store log fig' log',
    create_figure self layout = Some (fig, store, log)
    ∧ create_figure (with_points self store) (layout_after layout)
      = Some (fig', store, log')
    ∧ fig_traces fig' = fig_traces fig
    ∧ layout_height (fig_layout fig') = layout_height (fig_layout fig)
    ∧ layout_showlegend (fig_layout fig) = layout_showlegend layout
    ∧ layout_showlegend (fig_layout fig') = true.
Proof.
  destruct (select_outliers_total self) as (st & log & Hsel & _).
  destruct (select_outliers_again self _ _ _ Hsel) as (log' & Hsel').
  exists (build_figure self layout (count_annotated st) st), st, log,
    (build_figure (with_points self st) (layout_after layout)
       (count_annotated st) st), log'.
  unfold create_figure. rewrite Hsel, Hsel'.
  split; [done|]. split; [done|].
  rewrite !build_figure_traces, !build_figure_layout.
  rewrite (traces_from_params self (with_points self st)
             (layout_after layout) (layout_after (layout_after layout)))
    by done.
  done.
Qed.

End FigureAgain.

(* ================================================================== *)
(** * More on the loop over the points *)
(* ================================================================== *)

Lemma visible_keys_cons el l :
  visible_keys (el :: l)
  = if visible el then {[key_of el]} ∪ visible_keys l else visible_keys l.
Proof.
  unfold visible_keys. rewrite filter_cons.
  destruct (visible el); by case_decide.
Qed.

Lemma traces_from_cons self layout names n S el l :
  traces_from self layout names n S (el :: l)
  = ((traces_from self layout names n
        (legend_decision layout names S el).1.1 l).1,
     scatter_trace self n el (legend_decision layout names S el).1.2
       (legend_decision layout names S el).2
     :: (traces_from self layout names n
           (legend_decision layout names S el).1.1 l).2).
Proof. cbn. by destruct (legend_decision layout names S el) as [[? ?] ?]. Qed.

Lemma legend_decision_cases layout names S el :
  layout_showlegend layout = true →
  legend_decision layout names S el
  = if visible el && bool_decide (key_of el ∉ S)
    then ({[key_of el]} ∪ S, true,
          legend_label names (key_of el) (group el))
    else (S, false, name el).
Proof.
  intros Hshow. unfold legend_decision. rewrite Hshow. cbn.
  fold (visible el). destruct (visible el); [|done]. cbn.
  destruct (decide (key_of el ∈ S)).
  - by rewrite bool_decide_eq_true_2, bool_decide_eq_false_2 by auto.
  - by rewrite bool_decide_eq_false_2, bool_decide_eq_true_2 by auto.
Qed.

Lemma traces_from_in_legend self layout names n l : ∀ S,
  layout_showlegend layout = true →
  (traces_from self layout names n S l).1 = S ∪ visible_keys l.
Proof.
  intros S Hshow. revert S.
  induction l as [|el l IH]; intros S.
  - cbn. unfold visible_keys. cbn. set_solver.
  - rewrite traces_from_cons, visible_keys_cons. cbn [fst].
    rewrite IH, legend_decision_cases by done.
    destruct (visible el); cbn; [|done].
    case_bool_decide; cbn; set_solver.
Qed.

Lemma traces_from_size self layout names n l : ∀ S,
  layout_showlegend layout = true →
  size (traces_from self layout names n S l).1
  = size S + length (shown_traces (traces_from self layout names n S l).2).
Proof.
  intros S Hshow. revert S.
  induction l as [|el l IH]; intros S; [cbn; lia|].
  rewrite traces_from_cons. cbn [fst snd]. rewrite IH.
  unfold shown_traces. rewrite filter_cons. cbn [showlegend scatter_trace].
  rewrite legend_decision_cases by done.
  destruct (visible el && bool_decide (key_of el ∉ S)) eqn:Hnew; cbn.
  - apply andb_prop in Hnew as [_ Hnotin%bool_decide_eq_true_1].
    rewrite decide_True by done.
    rewrite size_union, size_singleton by set_solver. cbn. lia.
  - by rewrite decide_False.
Qed.

Lemma traces_from_names self layout names n l : ∀ S,
  layout_showlegend layout = true →
  Forall2 (λ el tr,
             tr = scatter_trace self n el (showlegend tr) (trace_name tr)
             ∧ (showlegend tr = false → trace_name tr = name el))
          l (traces_from self layout names n S l).2.
Proof.
  intros S Hshow. revert S.
  induction l as [|el l IH]; intros S; [constructor|].
  rewrite traces_from_cons. cbn [snd]. constructor; [|apply IH].
  rewrite legend_decision_cases by done.
  by destruct (visible el && bool_decide (key_of el ∉ S)).
Qed.

Lemma same_legend_data_visible p q :
  same_legend_data p q → visible q = visible p ∧ group q = group p.
Proof.
  intros (Hk & _ & Hh). unfold visible. rewrite Hh. split; [done|].
  unfold key_of in Hk. by injection Hk.
Qed.

Lemma visible_keys_same l l' :
  Forall2 same_legend_data l l' → visible_keys l' = visible_keys l.
Proof.
  induction 1 as [|p q l l' Hpq _ IH]; [done|].
  rewrite !visible_keys_cons, IH.
  destruct (same_legend_data_visible p q Hpq) as [-> _].
  by destruct Hpq as (-> & _).
Qed.

Lemma names_by_legend_key_same l l' :
  Forall2 same_legend_data l l' →
  names_by_legend_key l' = names_by_legend_key l.
Proof.
  unfold names_by_legend_key. generalize (∅ : gmap legend_key (gset string)).
  intros names HF. revert names.
  induction HF as [|p q l l' (Hk & Hn & _) _ IH]; intros names; [done|].
  cbn [foldl]. rewrite IH. f_equal. unfold add_name. by rewrite Hk, Hn.
Qed.

Lemma traces_from_legend_same self self' layout layout' names n n' l l' :
  Forall2 same_legend_data l l' →
  layout_showlegend layout = true → layout_showlegend layout' = true →
  ∀ S,
    legend_of (traces_from self' layout' names n' S l').2
    = legend_of (traces_from self layout names n S l).2.
Proof.
  intros HF Hshow Hshow'.
  induction HF as [|p q l l' Hpq _ IH]; intros S; [done|].
  rewrite !traces_from_cons. cbn [snd]. unfold legend_of in *. cbn.
  rewrite !legend_decision_cases by done.
  destruct (same_legend_data_visible p q Hpq) as [-> ->].
  destruct Hpq as (-> & -> & _).
  destruct (visible p && bool_decide (key_of p ∉ S)); cbn; by rewrite IH.
Qed.

Lemma trace_text_of_effect before after label :
  selector_effect before after →
  trace_text_of after label = label
  ∨ ∃ a, a ≠ "" ∧ trace_text_of after label = a
         ∧ (annotation before = Some a
            ∨ (is_candidate before = true ∧ a = name before)).
Proof.
  intros [->|[Hc ->]].
  - unfold trace_text_of. destruct (annotation before) as [[|c a]|] eqn:Ha;
      [by left| |by left].
    right. exists (String c a). split; [done|]. split; [done|]. by left.
  - unfold trace_text_of. cbn. destruct (name before) as [|c a] eqn:Hname;
      [by left|].
    right. exists (String c a). split; [done|]. split; [done|]. by right.
Qed.

Lemma trace_text_of_nonempty el label :
  trace_text_of el label
  = if annotation_nonempty el then default "" (annotation el) else label.
Proof.
  unfold trace_text_of, annotation_nonempty.
  by destruct (annotation el) as [[|c a]|].
Qed.

Lemma count_annotated_pos l :
  0 < count_annotated l ↔ Exists (λ el, has_annotation el = true) l.
Proof.
  unfold count_annotated. rewrite Exists_exists. split.
  - intros Hlen. destruct (filter _ l) as [|p k] eqn:Hf; [cbn in Hlen; lia|].
    assert (p ∈ filter (λ el, has_annotation el = true) l) as Hin
      by (rewrite Hf; left).
    apply list_elem_of_filter in Hin as [Ha Hp]. by exists p.
  - intros (p & Hp & Ha).
    assert (p ∈ filter (λ el, has_annotation el = true) l) as Hin
      by (by apply list_elem_of_filter).
    destruct (filter _ l); [by apply elem_of_nil in Hin|cbn; lia].
Qed.

Lemma selector_effect_style before after :
  selector_effect before after →
  color after = color before ∧ marker_size after = marker_size before
  ∧ marker_line_width after = marker_line_width before
  ∧ opacity after = opacity before.
Proof. by intros [->|[_ ->]]. Qed.

Section FigureExtras.
Context `{NumPy}.

(** [create_figure] returns, with the figure built from the points that
    the selector left. *)
Lemma create_figure_build (self : Dataset) (layout : Layout) :
  ∃ store log,
    create_figure self layout
    = Some (build_figure self layout (count_annotated store) store,
            store, log)
    ∧ Forall2 selector_effect (points self) store.
Proof.
  destruct (select_outliers_total self) as (st & log & Hsel & _).
  exists st, log. unfold create_figure. rewrite Hsel. split; [done|].
  by eapply select_outliers_effect.
Qed.

(** X5: [create_figure] adds one trace for each point, in the order of
    the points, at the coordinates of the point.  A trace that is no
    legend entry has the name of its point.  The text of a trace is the
    annotation of its point, as the selector left it, when that is a
    non-empty text, and else the name of the trace: for a legend entry
    that is the label of the legend, not the name of the point.  So the
    text is the name of the trace, or a non-empty text that is the
    annotation that the point had before the call or, for a candidate,
    the name of the point. *)
Theorem traces_follow_points (self : Dataset) (layout : Layout) :
  ∃ fig store log,
    create_figure self layout = Some (fig, store, log)
    ∧ Forall2 (λ el tr,
                 trace_x tr = [x el] ∧ trace_y tr = [y el]
                 ∧ (showlegend tr = false → trace_name tr = name el)
                 ∧ (trace_text tr = [trace_name tr]
                    ∨ ∃ a, a ≠ "" ∧ trace_text tr = [a]
                           ∧ (annotation el = Some a
                              ∨ (is_candidate el = true ∧ a = name el))))
              (points self) (fig_traces fig)
    ∧ Forall2 (λ el tr,
                 trace_text tr
                 = [if annotation_nonempty el then default "" (annotation el)
                    else trace_name tr])
              store (fig_traces fig).
Proof.
  destruct (create_figure_build self layout) as (st & log & Hfig & Heff).
  eexists _, st, log. split; [exact Hfig|].
  rewrite build_figure_traces.
  pose proof (traces_from_names self (layout_after layout)
                (names_by_legend_key st) (count_annotated st) st ∅ eq_refl)
    as Htr.
  split.
  - eapply Forall2_trans; [|exact Heff|exact Htr].
    intros p q tr Hpq [Htr' Hname].
    destruct (selector_effect_coordinates _ _ Hpq) as (_ & Hx & Hy).
    destruct (selector_effect_legend _ _ Hpq) as (_ & Hnm & _).
    rewrite Hnm in Hname.
    assert (trace_x tr = [x q] ∧ trace_y tr = [y q]
            ∧ trace_text tr = [trace_text_of q (trace_name tr)])
      as (-> & -> & ->) by (by rewrite Htr').
    rewrite Hx, Hy.
    split; [done|]. split; [done|]. split; [exact Hname|].
    destruct (trace_text_of_effect _ _ (trace_name tr) Hpq)
      as [->|(a & Hne & -> & Ha)]; [by left|right; by exists a].
  - eapply Forall2_impl; [exact Htr|].
    intros q tr [Htr' _]. rewrite <- trace_text_of_nonempty. by rewrite Htr'.
Qed.

(** X6: the traces that are legend entries are as many as the distinct
    legend keys of the points without [hide_in_legend], and the height of
    the layout grows by 5 for each of them. *)
Theorem legend_size_and_height (self : Dataset) (layout : Layout) :
  ∃ fig store log,
    create_figure self layout = Some (fig, store, log)
    ∧ length (shown_traces (fig_traces fig))
      = size (visible_keys (points self))
    ∧ layout_height (fig_layout fig)
      = (layout_height layout
         + Z.of_nat (size (visible_keys (points self))) * 5)%Z.
Proof.
  destruct (create_figure_build self layout) as (st & log & Hfig & Heff).
  eexists _, st, log. split; [exact Hfig|].
  assert (visible_keys st = visible_keys (points self)) as Hkeys.
  { apply visible_keys_same.
    eapply Forall2_impl; [exact Heff|apply selector_effect_legend]. }
  rewrite build_figure_traces, build_figure_layout. cbn [layout_height].
  pose proof (traces_from_size self (layout_after layout)
                (names_by_legend_key st) (count_annotated st) st ∅ eq_refl)
    as Hsize.
  rewrite traces_from_in_legend in Hsize |- * by done.
  rewrite size_empty in Hsize.
  replace (∅ ∪ visible_keys st) with (visible_keys st) in * by set_solver.
  rewrite Hkeys in *. split; [lia|done].
Qed.

(** X7: the border colour of the markers is the same for all the traces
    of a figure: [rgba(0, 0, 0, .2)] when some point carries an
    annotation after the selector has run, be it the empty text, and
    else the border colour of the trace parameters of the dataset.  A
    point that carries an annotation before the call is enough, and so
    is a point that the selector renames. *)
Theorem trace_borders (self : Dataset) (layout : Layout) :
  ∃ fig store log,
    create_figure self layout = Some (fig, store, log)
    ∧ Forall (λ tr,
                line_color (trace_marker tr)
                = if bool_decide (Exists (λ el, has_annotation el = true) store)
                  then Some "rgba(0, 0, 0, .2)"
                  else line_color (marker (trace_params self)))
             (fig_traces fig)
    ∧ (Exists (λ el, has_annotation el = true) (points self)
       ∨ store ≠ points self
       → Exists (λ el, has_annotation el = true) store).
Proof.
  destruct (create_figure_build self layout) as (st & log & Hfig & Heff).
  eexists _, st, log. split; [exact Hfig|].
  rewrite build_figure_traces.
  pose proof (traces_from_names self (layout_after layout)
                (names_by_legend_key st) (count_annotated st) st ∅ eq_refl)
    as Htr.
  split.
  - eapply Forall2_Forall_r; [exact Htr|].
    apply Forall_forall. intros el _ tr [-> _]. cbn.
    by rewrite (bool_decide_ext _ _ (count_annotated_pos st)).
  - clear Hfig Htr. intros [Hex|Hne].
    + rewrite <- count_annotated_pos in Hex |- *.
      enough (count_annotated (points self) ≤ count_annotated st) by lia.
      apply count_annotated_mono. eapply Forall2_impl; [exact Heff|].
      by intros p q [->|[_ ->]].
    + induction Heff as [|p q l k Hpq _ IH]; [done|].
      destruct Hpq as [->|[_ ->]]; [|by left].
      right. apply IH. congruence.
Qed.

(** X8: the legend, that is the flag and the name of every trace, depends
    on the legend keys, the names and the [hide_in_legend] of the points
    only: not on the coordinates, the annotations, the choice of the
    selector, the trace parameters or the layout. *)
Theorem legend_depends_on_legend_data (self self' : Dataset)
    (layout layout' : Layout) :
  Forall2 same_legend_data (points self) (points self') →
  ∃ fig store log fig' store' log',
    create_figure self layout = Some (fig, store, log)
    ∧ create_figure self' layout' = Some (fig', store', log')
    ∧ legend_of (fig_traces fig') = legend_of (fig_traces fig).
Proof.
  intros Hsame.
  destruct (create_figure_build self layout) as (st & log & Hfig & Heff).
  destruct (create_figure_build self' layout') as (st' & log' & Hfig' & Heff').
  eexists _, st, log, _, st', log'. split; [exact Hfig|]. split; [exact Hfig'|].
  assert (Forall2 same_legend_data st st') as Hst.
  { apply (Forall2_trans (flip same_legend_data) same_legend_data
             same_legend_data st (points self) st').
    - unfold same_legend_data, flip. intros q p q' (-> & -> & ->). done.
    - apply Forall2_flip. eapply Forall2_impl; [exact Heff|].
      apply selector_effect_legend.
    - apply (Forall2_trans same_legend_data same_legend_data
               same_legend_data _ (points self') _); [|done|].
      + unfold same_legend_data. intros p p' q' (<- & <- & <-). done.
      + eapply Forall2_impl; [exact Heff'|]. apply selector_effect_legend. }
  rewrite !build_figure_traces, (names_by_legend_key_same st st' Hst).
  by apply traces_from_legend_same.
Qed.

(** X9: when all the points of a legend key have the same name, the label
    of its entry is that name, after the group prefix and the crop. *)
Theorem single_name_label (self : Dataset) (layout : Layout) :
  ∃ fig store log,
    create_figure self layout = Some (fig, store, log)
    ∧ ∀ key el tr,
        (el, tr) ∈ legend_entries key store (fig_traces fig) →
        (∀ other, other ∈ points self → key_of other = key →
                  name other = name el) →
        trace_name tr = crop_label (with_group (group el) (name el)).
Proof.
  destruct (create_figure_entries self layout)
    as (fig & st & log & Hfig & Heff & _ & Hent).
  exists fig, st, log. split; [exact Hfig|].
  intros key el0 tr Hin Hall. rewrite Hent in Hin.
  destruct (representative key st) as [el|] eqn:Hrep;
    [|by apply elem_of_nil in Hin].
  apply list_elem_of_singleton in Hin. injection Hin as -> ->.
  apply representative_Some in Hrep as (Hel & Hkey & _).
  cbn. unfold legend_label. rewrite names_by_legend_key_lookup.
  assert (list_to_set (names_of_key key st) = ({[name el]} : gset string))
    as ->.
  { apply set_eq. intros nm.
    rewrite elem_of_list_to_set, elem_of_singleton. unfold names_of_key.
    rewrite list_elem_of_fmap. split.
    - intros (q & -> & [Hk Hq]%list_elem_of_filter).
      apply list_elem_of_lookup in Hq as [i Hq].
      destruct (Forall2_lookup_r _ _ _ _ _ Heff Hq) as (p & Hp & Hpq).
      destruct (selector_effect_legend _ _ Hpq) as (Hk' & -> & _).
      apply Hall; [by eapply list_elem_of_lookup_2|congruence].
    - intros ->. exists el. split; [done|]. by apply list_elem_of_filter. }
  unfold sorted. by rewrite elements_singleton.
Qed.

(** X10: the rows that [save_data_file] hands to the writer, one for each
    point and in the order of the points, are the same before and after
    [create_figure] has run on the dataset. *)
Theorem data_file_unaffected (self : Dataset) (layout : Layout)
    (uid : string) :
  ∃ fig store log,
    create_figure self layout = Some (fig, store, log)
    ∧ save_data_file uid (with_points self store) = save_data_file uid self
    ∧ Forall2 (λ el row,
                 row_name row = name el ∧ row_x row = x el
                 ∧ row_y row = y el)
              (points self) (save_data_file uid self).1.
Proof.
  destruct (create_figure_build self layout) as (st & log & Hfig & Heff).
  eexists _, st, log. split; [exact Hfig|]. split.
  - unfold save_data_file. cbn [points with_points]. f_equal.
    clear Hfig. induction Heff as [|p q l k Hpq _ IH]; [done|]. cbn.
    f_equal; [|exact IH].
    destruct (selector_effect_coordinates _ _ Hpq) as (_ & -> & ->).
    by destruct (selector_effect_legend _ _ Hpq) as (_ & -> & _).
  - unfold save_data_file. cbn [fst]. apply Forall2_fmap_r.
    apply Forall_Forall2_diag, Forall_forall. by intros el _.
Qed.

End FigureExtras.

(* ================================================================== *)
(** * The further properties on the example datasets *)
(* ================================================================== *)

(** X1 on [mixed]: the far point, the candidate at position 6, is
    annotated. *)
Lemma outliers_annotated_exactly_mixed :
  ∃ st log,
    @select_outliers numpy_float64 mixed = Some (st, count_annotated st, log)
    ∧ annotation <$> st !! 6 = Some (Some "far").
Proof.
  destruct (outliers_annotated_exactly (H:=numpy_float64) mixed 6 6
              (plain_point 9 9 "far")
              (default 0%float ((@selector_z_scores numpy_float64 mixed).1 !! 6))
              (default 0%float ((@selector_z_scores numpy_float64 mixed).2 !! 6)))
    as (st & log & t & Hsel & Hloop & Hst); try by vm_compute.
  - vm_compute. lia.
  - exists st, log. split; [exact Hsel|]. rewrite Hst.
    vm_compute in Hloop. injection Hloop as <- _. by vm_compute.
Defined.

(** X3 with no and with nine annotated points, one outlier on each axis. *)
Lemma more_annotated_higher_threshold_9 :
  ∃ t log t' log',
    threshold_loop LOOP_FUEL 0 [7; 0]%float [0; 7]%float 1 = Some (t, log)
    ∧ threshold_loop LOOP_FUEL 9 [7; 0]%float [0; 7]%float 1 = Some (t', log')
    ∧ PrimFloat.ltb t t' = true.
Proof.
  destruct (more_annotated_higher_threshold 0 9 [7; 0]%float [0; 7]%float)
    as (t & log & t' & log' & Hl & Hl' & _); [lia|].
  exists t, log, t', log'. split; [exact Hl|]. split; [exact Hl'|].
  vm_compute in Hl, Hl'. injection Hl as <- _. injection Hl' as <- _.
  by vm_compute.
Defined.

(** X8 on [two_keys] and [two_keys_moved]. *)
Lemma legend_of_two_keys_moved :
  ∃ fig log fig' log' store store',
    @create_figure numpy_float64 two_keys a_layout = Some (fig, store, log)
    ∧ @create_figure numpy_float64 two_keys_moved
        {| layout_showlegend := true; layout_height := 0 |}
      = Some (fig', store', log')
    ∧ legend_of (fig_traces fig') = legend_of (fig_traces fig).
Proof.
  destruct (legend_depends_on_legend_data (H:=numpy_float64)
              two_keys two_keys_moved a_layout
              {| layout_showlegend := true; layout_height := 0 |})
    as (fig & store & log & fig' & store' & log' & Hf & Hf' & Hleg).
  - repeat constructor.
  - by exists fig, log, fig', log', store, store'.
Defined.

(** X9 on [one_name]. *)
Lemma single_name_label_ctrl :
  ∃ fig store log,
    @create_figure numpy_float64 one_name a_layout = Some (fig, store, log)
    ∧ trace_name <$> head (fig_traces fig) = Some "ctrl".
Proof.
  destruct (single_name_label (H:=numpy_float64) one_name a_layout)
    as (fig & store & log & Hfig & Hlabel).
  exists fig, store, log. split; [exact Hfig|].
  vm_compute in Hfig. injection Hfig as <- <- <-.
  cbn [fig_traces head fmap option_fmap option_map].
  match goal with
  | |- Some (trace_name ?tr) = _ =>
      rewrite (Hlabel grey_key (styled_point 1 2 "ctrl" "grey" None 10) tr)
  end.
  - done.
  - vm_compute. left.
  - intros other Hin _. cbn in Hin.
    repeat (apply elem_of_cons in Hin as [->|Hin]; [done|]).
    by apply elem_of_nil in Hin.
Defined.

(** C3 on [relabelled]: the single candidate is renamed, and the text that
    the caller gave is gone. *)
Lemma annotations_renamed_relabelled :
  ∃ st log,
    @select_outliers numpy_float64 relabelled
    = Some (st, count_annotated st, log)
    ∧ annotation <$> points relabelled = [Some "my label"]
    ∧ annotation <$> st = [Some "s1"].
Proof.
  destruct (annotations_kept_or_renamed (H:=numpy_float64) relabelled)
    as (st & log & Hsel & _ & _ & _ & Hwhich).
  exists st, log. split; [exact Hsel|]. split; [reflexivity|].
  vm_compute in Hwhich. destruct Hwhich as (-> & _). reflexivity.
Defined.

(** X4 on [half_hidden], with a layout that does not show the legend. *)
Lemma create_figure_again_half_hidden :
  ∃ fig store log fig' log',
    @create_figure numpy_float64 half_hidden a_layout = Some (fig, store, log)
    ∧ @create_figure numpy_float64 (with_points half_hidden store)
        (layout_after a_layout)
      = Some (fig', store, log')
    ∧ fig_layout fig = {| layout_showlegend := false; layout_height := 505 |}
    ∧ fig_layout fig' = {| layout_showlegend := true; layout_height := 505 |}
    ∧ fig_traces fig' = fig_traces fig.
Proof.
  destruct (create_figure_again (H:=numpy_float64) half_hidden a_layout)
    as (fig & store & log & fig' & log' & Hfig & Hfig' & Htr & _).
  exists fig, store, log, fig', log'.
  split; [exact Hfig|]. split; [exact Hfig'|].
  vm_compute in Hfig. injection Hfig as <- <- <-.
  vm_compute in Hfig'. injection Hfig' as <- <-.
  repeat split.
Defined.

(** X5 on [half_hidden]: the text of the legend entry is its label. *)
Lemma traces_follow_points_half_hidden :
  ∃ fig store log,
    @create_figure numpy_float64 half_hidden a_layout = Some (fig, store, log)
    ∧ name <$> store = ["ghost"; "shown"]
    ∧ trace_name <$> fig_traces fig = ["ghost"; "ghost, shown"]
    ∧ trace_text <$> fig_traces fig = [["ghost"]; ["ghost, shown"]].
Proof.
  destruct (traces_follow_points (H:=numpy_float64) half_hidden a_layout)
    as (fig & store & log & Hfig & _ & Htext).
  exists fig, store, log. split; [exact Hfig|].
  vm_compute in Hfig. injection Hfig as <- <- <-.
  split; [reflexivity|]. split; [reflexivity|].
  apply Forall2_cons_1 in Htext as [Hghost Htext].
  apply Forall2_cons_1 in Htext as [Hshown _].
  cbn [fig_traces fmap list_fmap]. rewrite Hghost, Hshown. reflexivity.
Defined.

(** X7 on [blank_label]: the empty annotation greys the border, although
    the trace is not in annotation mode. *)
Lemma trace_borders_blank :
  ∃ fig store log,
    @create_figure numpy_float64 blank_label a_layout = Some (fig, store, log)
    ∧ annotation <$> store = [Some ""]
    ∧ trace_mode <$> fig_traces fig = [Some "markers"]
    ∧ (line_color ∘ trace_marker) <$> fig_traces fig
      = [Some "rgba(0, 0, 0, .2)"].
Proof.
  destruct (trace_borders (H:=numpy_float64) blank_label a_layout)
    as (fig & store & log & Hfig & Hborder & _).
  exists fig, store, log. split; [exact Hfig|].
  vm_compute in Hfig. injection Hfig as <- <- <-.
  split; [reflexivity|]. split; [reflexivity|].
  apply Forall_cons_1 in Hborder as [Hborder _].
  cbn [fig_traces fmap list_fmap compose]. rewrite Hborder.
  rewrite bool_decide_eq_true_2; [reflexivity|]. by left.
Defined.
